(** * changelog_builder.py: a shallow embedding and its properties

    The script derives a semantic-version bump from the commit messages of a
    pull request, appends a changelog section and tags the release, shelling
    out to git for every repository operation.

    Modelling conventions.
    - A Python [str] is a Rocq [string]; a character stands for the code point
      of the same number (0..255).  Code points above 255 are outside the
      model.  In that range the decimal digits are exactly "0".."9".
    - A Python [int] is a [Z]; the interpreter's optional limit on the length
      of int/str conversions is not modelled.
    - Exceptions are values of [exn]; a computation that can raise returns a
      [result].
    - The outside world (git, the terminal, the file system, the environment)
      is explicit: see the section [Orchestration]. *)

From Stdlib Require Import ZArith Lia Ascii String DecimalString DecimalPos.
From stdpp Require Import base option list strings gmap.

Local Open Scope Z_scope.

(** String concatenation computes on a literal prefix. *)
Local Arguments String.append : simpl nomatch.

(** ** Exceptions and fallible results *)

(** The [ValueError]s of the program, by origin: [int()] on a bad literal,
    tuple unpacking of the wrong length, and an explicit message. *)
Inductive value_error :=
| InvalidLiteral (literal : string)
| NotEnoughValues (expected got : nat)
| TooManyValues (expected : nat)
| Msg (text : string).

Inductive exn :=
| CalledProcessError (returncode : Z) (cmd : list string) (stderr : option string)
| ValueError (what : value_error)
| IndexError.

Inductive result (A : Type) :=
| Ok (a : A)
| Raise (e : exn).
Arguments Ok {A} a.
Arguments Raise {A} e.

Definition rbind {A B} (r : result A) (k : A -> result B) : result B :=
  match r with
  | Ok a => k a
  | Raise e => Raise e
  end.

(** ** The string primitives the script uses *)

Module Py.

Definition code (c : ascii) : N := N_of_ascii c.

(** [c.isdigit()] for a decimal digit, which is also the class [\d]. *)
Definition is_digit (c : ascii) : bool :=
  ((48 <=? code c) && (code c <=? 57))%N.

Definition digit_value (c : ascii) : Z := Z.of_N (code c) - 48.

(** The characters [int()] skips around a literal: tab, line feed, vertical
    tab, form feed, carriage return, space, and the two white-space code
    points above 127 (next line, no-break space). *)
Definition is_int_space (c : ascii) : bool :=
  (((9 <=? code c) && (code c <=? 13)) || (code c =? 32)
   || (code c =? 133) || (code c =? 160))%N.

(** [needle in hay]. *)
Fixpoint contains (needle hay : string) : bool :=
  String.prefix needle hay ||
  match hay with
  | EmptyString => false
  | String _ hay' => contains needle hay'
  end.

(** [s.lstrip(c)] for a one-character set. *)
Fixpoint lstrip (c : ascii) (s : string) : string :=
  match s with
  | String a s' => if Ascii.eqb a c then lstrip c s' else s
  | EmptyString => EmptyString
  end.

(** [s.split(sep)] for a one-character separator: never empty. *)
Fixpoint split (sep : ascii) (s : string) : list string :=
  match s with
  | EmptyString => [EmptyString]
  | String a s' =>
      if Ascii.eqb a sep then EmptyString :: split sep s'
      else match split sep s' with
           | [] => [String a EmptyString]
           | w :: ws => String a w :: ws
           end
  end.

(** [s.split(sep, 1)]: at most one cut, at the first separator. *)
Fixpoint split1 (sep : ascii) (s : string) : list string :=
  match s with
  | EmptyString => [EmptyString]
  | String a s' =>
      if Ascii.eqb a sep then [EmptyString; s']
      else match split1 sep s' with
           | [] => [String a EmptyString]
           | w :: ws => String a w :: ws
           end
  end.

(** The line boundaries of [str.splitlines()] below code point 256. *)
Definition is_linebreak (c : ascii) : bool :=
  (((10 <=? code c) && (code c <=? 13))
   || ((28 <=? code c) && (code c <=? 30)) || (code c =? 133))%N.

(** [s.splitlines()]: the lines without their terminators; "\r\n" is one
    terminator; no empty last line after a final terminator. *)
Fixpoint splitlines (s : string) : list string :=
  match s with
  | EmptyString => []
  | String a s' =>
      if is_linebreak a then
        EmptyString ::
        match s' with
        | String b s'' =>
            if ((code a =? 13) && (code b =? 10))%N
            then match splitlines s' with _ :: ls => ls | [] => [] end
            else splitlines s'
        | EmptyString => []
        end
      else match splitlines s' with
           | [] => [String a EmptyString]
           | w :: ws => String a w :: ws
           end
  end.

(** [str(n)]: the decimal numeral, "-" in front of a negative one. *)
Definition str (n : Z) : string := NilEmpty.string_of_int (Z.to_int n).

Fixpoint skip_space (s : string) : string :=
  match s with
  | String a s' => if is_int_space a then skip_space s' else s
  | EmptyString => EmptyString
  end.

Fixpoint all_space (s : string) : bool :=
  match s with
  | String a s' => is_int_space a && all_space s'
  | EmptyString => true
  end.

(** The digit scan of [int()]: digits, with single underscores allowed
    between two digits.  [after_underscore] tells that the previous
    character was an underscore; the scan stops at the first other
    character and returns the value with what is left. *)
Fixpoint scan_digits (s : string) (acc : Z) (after_underscore : bool)
  : option (Z * string) :=
  match s with
  | String a s' =>
      if is_digit a then scan_digits s' (10 * acc + digit_value a) false
      else if Ascii.eqb a "_" then
        if after_underscore then None else scan_digits s' acc true
      else if after_underscore then None else Some (acc, s)
  | EmptyString => if after_underscore then None else Some (acc, EmptyString)
  end.

(** The literal after the leading white space: an optional sign, a digit,
    the rest of the digits, trailing white space. *)
Definition int_literal (s : string) : option Z :=
  let '(negative, body) :=
    match s with
    | String a s' =>
        if Ascii.eqb a "+" then (false, s')
        else if Ascii.eqb a "-" then (true, s')
        else (false, s)
    | EmptyString => (false, s)
    end in
  match body with
  | String d _ =>
      if is_digit d then
        match scan_digits body 0 false with
        | Some (v, rest) =>
            if all_space rest then Some (if negative then - v else v)
            else None
        | None => None
        end
      else None
  | EmptyString => None
  end.

(** [int(s)] in base 10. *)
Definition int (s : string) : result Z :=
  match int_literal (skip_space s) with
  | Some v => Ok v
  | None => Raise (ValueError (InvalidLiteral s))
  end.

End Py.


(** ** [re.match] for the one pattern the script uses *)

Module Re.

(** The atoms of [^v\d+\.\d+\.\d+$]: the two anchors, a literal character
    and [\d+]. *)
Inductive atom :=
| Bol
| Eol
| Chr (c : ascii)
| Digits1.

Definition newline : ascii := ascii_of_nat 10.

(** [$] without the MULTILINE flag: at the end of the string, or just before
    a line feed that ends the string. *)
Definition at_eol (s : string) : bool :=
  match s with
  | EmptyString => true
  | String a EmptyString => Ascii.eqb a newline
  | _ => false
  end.

(** Backtracking match of a sequence of atoms at the current position;
    [at_start] tells that nothing has been consumed yet.  Like [re.match],
    it does not ask the pattern to reach the end of the string. *)
Fixpoint match_here (re : list atom) (at_start : bool) (s : string) : bool :=
  match re with
  | [] => true
  | Bol :: re' => at_start && match_here re' at_start s
  | Eol :: re' => at_eol s && match_here re' at_start s
  | Chr c :: re' =>
      match s with
      | String a s' => Ascii.eqb a c && match_here re' false s'
      | EmptyString => false
      end
  | Digits1 :: re' =>
      (fix more (s : string) : bool :=
         match s with
         | String a s' =>
             Py.is_digit a && (more s' || match_here re' false s')
         | EmptyString => false
         end) s
  end.

Definition matches (re : list atom) (s : string) : bool :=
  match_here re true s.

End Re.

(** ** The pure functions of the script *)

(** Lines 24-31. *)
Definition pattern : list Re.atom :=
  [Re.Bol; Re.Chr "v"; Re.Digits1; Re.Chr "."; Re.Digits1; Re.Chr ".";
   Re.Digits1; Re.Eol].

Definition validate_semantic_version (tag : string) : bool :=
  Re.matches pattern tag.

(** A commit as [get_commits_from_pr] returns it: (short hash, subject). *)
Definition commit : Type := string * string.

(** Lines 53-66. *)
Fixpoint determine_version_increment (commits : list commit) : string :=
  match commits with
  | [] => "patch"
  | (_, message) :: commits' =>
      if Py.contains "BREAKING CHANGE" message then "major"
      else if Py.contains "feat" message || Py.contains "feature" message
      then "minor"
      else if Py.contains "fix" message then "patch"
      else determine_version_increment commits'
  end.

(** Unpacking an iterator of three items into three names: the items are
    produced in order, each may raise, and a fourth one is asked for to tell
    that there are too many. *)
Definition unpack3 (items : list (result Z)) : result (Z * Z * Z) :=
  match items with
  | [] => Raise (ValueError (NotEnoughValues 3 0))
  | i1 :: items1 =>
      rbind i1 (fun major =>
      match items1 with
      | [] => Raise (ValueError (NotEnoughValues 3 1))
      | i2 :: items2 =>
          rbind i2 (fun minor =>
          match items2 with
          | [] => Raise (ValueError (NotEnoughValues 3 2))
          | i3 :: items3 =>
              rbind i3 (fun patch =>
              match items3 with
              | [] => Ok (major, minor, patch)
              | i4 :: _ =>
                  rbind i4 (fun _ => Raise (ValueError (TooManyValues 3)))
              end)
          end)
      end)
  end.

(** Line 92: [major, minor, patch = map(int, version.lstrip("v").split("."))]. *)
Definition parse_version (version : string) : result (Z * Z * Z) :=
  unpack3 (List.map Py.int (Py.split "." (Py.lstrip "v" version))).

(** Lines 94-102. *)
Definition bump (v : Z * Z * Z) (version_type : string) : Z * Z * Z :=
  let '(major, minor, patch) := v in
  if String.eqb version_type "major" then (major + 1, 0, 0)
  else if String.eqb version_type "minor" then (major, minor + 1, 0)
  else if String.eqb version_type "patch" then (major, minor, patch + 1)
  else (major, minor, patch).

(** Line 104: [f"v{major}.{minor}.{patch}"]. *)
Definition format_version (v : Z * Z * Z) : string :=
  let '(major, minor, patch) := v in
  "v" +:+ Py.str major +:+ "." +:+ Py.str minor +:+ "." +:+ Py.str patch.

(** Lines 85-104. *)
Definition increment_version (version version_type : string) : result string :=
  rbind (parse_version version) (fun v =>
  Ok (format_version (bump v version_type))).

(** ** The outside world *)

(** What [subprocess.run] hands back. *)
Record completed := Completed {
  returncode : Z;
  stdout : string;
  stderr : string
}.

(** The lines the script prints, one constructor per [print] of the source,
    with the values its f-string interpolates (the rendering of an exception
    as text is not modelled). *)
Inductive line :=
| ErrorFetchingTags (err : option string)         (* line 21 *)
| ErrorFetchingCommits (err : option string)      (* line 50 *)
| NoCommitsFound (base_branch pr_branch : string) (* line 116 *)
| LatestTag (tag : string)                        (* line 121 *)
| NewTag (tag : string)                           (* line 127 *)
| ChangelogUpdated (tag : string)                 (* line 139 *)
| Error (e : exn).                                (* line 141 *)

(** What a run does to the outside, in the order it does it. *)
Inductive event :=
| Invoke (cmd : list string) (res : completed)
| Print (l : line)
| OpenAppend (path : string)
| Write (path text : string).

Record state := State {
  trace : list event;
  files : gmap string string
}.

Definition M (A : Type) : Type := state -> result A * state.

Definition ret {A} (a : A) : M A := fun st => (Ok a, st).

Definition raise {A} (e : exn) : M A := fun st => (Raise e, st).

Definition bind {A B} (m : M A) (k : A -> M B) : M B :=
  fun st =>
    match m st with
    | (Ok a, st') => k a st'
    | (Raise e, st') => (Raise e, st')
    end.

(** [try: m  except ... as e: handler e]; a handler that does not match
    re-raises. *)
Definition try_except {A} (m : M A) (handler : exn -> M A) : M A :=
  fun st =>
    match m st with
    | (Ok a, st') => (Ok a, st')
    | (Raise e, st') => handler e st'
    end.

Definition lift {A} (r : result A) : M A := fun st => (r, st).

Notation "'let*' x ':=' m 'in' k" := (bind m (fun x => k))
  (at level 10, x name, m at level 100, k at level 200).
Notation "m ';;' k" := (bind m (fun _ => k))
  (at level 100, k at level 200, right associativity).

Definition emit (e : event) : M unit :=
  fun st => (Ok tt, State (trace st ++ [e]) (files st)).

Definition print (l : line) : M unit := emit (Print l).

(** [open(path, "a")] creates the file when it is missing. *)
Definition open_append (path : string) : M unit :=
  fun st =>
    (Ok tt,
     State (trace st ++ [OpenAppend path])
           (<[path := default "" (files st !! path)]> (files st))).

(** [f.write(text)] on a file opened for appending. *)
Definition write (path text : string) : M unit :=
  fun st =>
    (Ok tt,
     State (trace st ++ [Write path text])
           (<[path := default "" (files st !! path) +:+ text]> (files st))).

(** One item of the list comprehension of line 48:
    [(commit.split(" ", 1)[0], commit.split(" ", 1)[1])]. *)
Definition commit_of_line (l : string) : result commit :=
  match Py.split1 " " l with
  | commit_hash :: message :: _ => Ok (commit_hash, message)
  | _ => Raise IndexError
  end.

Fixpoint commits_of_lines (ls : list string) : result (list commit) :=
  match ls with
  | [] => Ok []
  | l :: ls' =>
      rbind (commit_of_line l) (fun c =>
      rbind (commits_of_lines ls') (fun cs => Ok (c :: cs)))
  end.

Section Orchestration.

(** The process environment, and git: what an invocation returns may depend
    on everything that happened before it. *)
Variable environ : gmap string string.
Variable tool : state -> list string -> completed.

(** [subprocess.run(cmd, check=True)], with or without
    [capture_output=True, text=True]: a non-zero exit status raises. *)
Definition subprocess_run (cmd : list string) (capture_output : bool)
  : M completed :=
  fun st =>
    let res := tool st cmd in
    let st' := State (trace st ++ [Invoke cmd res]) (files st) in
    if returncode res =? 0 then (Ok res, st')
    else (Raise (CalledProcessError (returncode res) cmd
                   (if capture_output then Some (stderr res) else None)),
          st').

(** Lines 4-22. *)
Definition get_latest_tag : M string :=
  try_except
    (let* result := subprocess_run ["git"; "tag"; "--sort=-v:refname"] true in
     let tags := Py.splitlines (stdout result) in
     match tags with
     | [] => raise (ValueError (Msg "No tags found in the repository."))
     | tag :: _ => ret tag
     end)
    (fun e =>
       match e with
       | CalledProcessError _ _ err => print (ErrorFetchingTags err);; raise e
       | _ => raise e
       end).

(** Lines 33-51. *)
Definition get_commits_from_pr (base_branch pr_branch : string)
  : M (list commit) :=
  try_except
    (let* result :=
       subprocess_run
         ["git"; "log"; base_branch +:+ ".." +:+ pr_branch;
          "--pretty=format:%h %s"] true in
     let commits := Py.splitlines (stdout result) in
     lift (commits_of_lines commits))
    (fun e =>
       match e with
       | CalledProcessError _ _ err =>
           print (ErrorFetchingCommits err);; ret []
       | _ => raise e
       end).

(** Lines 81-83, on the open file. *)
Fixpoint write_bullets (output_file base_url : string) (commits : list commit)
  : M unit :=
  match commits with
  | [] => ret tt
  | (commit_hash, message) :: commits' =>
      let commit_url := base_url +:+ "/" +:+ commit_hash in
      write output_file
        ("- [" +:+ commit_hash +:+ "](" +:+ commit_url +:+ "): " +:+ message
         +:+ String Re.newline "");;
      write_bullets output_file base_url commits'
  end.

(** Lines 68-83. *)
Definition update_changelog (commits : list commit) (from_tag to_tag : string)
    (output_file : string) : M unit :=
  let github_repo := default "unknown/repo" (environ !! "GITHUB_REPOSITORY") in
  let base_url := "https://github.com/" +:+ github_repo +:+ "/commit" in
  open_append output_file;;
  write output_file
    (String Re.newline "## Changes from " +:+ from_tag +:+ " to " +:+ to_tag
     +:+ String Re.newline (String Re.newline ""));;
  write_bullets output_file base_url commits.

(** Lines 106-141. *)
Definition generate_pr_based_changelog (base_branch pr_branch : string)
  : M unit :=
  try_except
    (let* commits := get_commits_from_pr base_branch pr_branch in
     match commits with
     | [] => print (NoCommitsFound base_branch pr_branch)
     | _ :: _ =>
         let* from_tag := get_latest_tag in
         print (LatestTag from_tag);;
         (if validate_semantic_version from_tag then ret tt
          else raise (ValueError
                        (Msg ("Latest tag " +:+ from_tag +:+ " is not valid."))));;
         let increment_type := determine_version_increment commits in
         let* new_tag := lift (increment_version from_tag increment_type) in
         print (NewTag new_tag);;
         subprocess_run ["git"; "tag"; new_tag] false;;
         subprocess_run ["git"; "push"; "origin"; new_tag] false;;
         update_changelog commits from_tag new_tag "changelog.md";;
         subprocess_run ["git"; "add"; "changelog.md"] false;;
         subprocess_run
           ["git"; "commit"; "-m"; "Update changelog for " +:+ new_tag] false;;
         subprocess_run ["git"; "push"; "origin"; base_branch] false;;
         print (ChangelogUpdated new_tag)
     end)
    (fun e => print (Error e)).

End Orchestration.

(** A run of the script's entry point from a fresh trace. *)
Definition run (environ : gmap string string)
    (tool : state -> list string -> completed) (fs : gmap string string)
    (base_branch pr_branch : string) : state :=
  snd (generate_pr_based_changelog environ tool base_branch pr_branch
         (State [] fs)).

(** ** Vocabulary of the statements *)

(** A message matches a rule of the classifier when it contains one of the
    four keywords. *)
Definition matches_rule (message : string) : bool :=
  Py.contains "BREAKING CHANGE" message || Py.contains "feat" message
  || Py.contains "feature" message || Py.contains "fix" message.

Definition no_rule (c : commit) : Prop := matches_rule (snd c) = false.

(** [all(p(c) for c in s)]. *)
Fixpoint all_chars (p : ascii -> bool) (s : string) : bool :=
  match s with
  | String a s' => p a && all_chars p s'
  | EmptyString => true
  end.

(** A non-empty run of decimal digits: what [\d+] consumes. *)
Definition digits (s : string) : bool :=
  match s with
  | EmptyString => false
  | String _ _ => all_chars Py.is_digit s
  end.

(** The number a run of digits denotes, most significant digit first. *)
Fixpoint decimal_value (s : string) (acc : Z) : Z :=
  match s with
  | String a s' => decimal_value s' (10 * acc + Py.digit_value a)
  | EmptyString => acc
  end.

(** The strings [^v\d+\.\d+\.\d+$] describes, spelled out: "v", three
    non-empty runs of digits separated by dots, and nothing after them but,
    possibly, one final line feed. *)
Definition semver_shape (tag : string) : Prop :=
  exists d1 d2 d3 nl : string,
    digits d1 = true /\ digits d2 = true /\ digits d3 = true /\
    (nl = "" \/ nl = String Re.newline "") /\
    tag = "v" +:+ d1 +:+ "." +:+ d2 +:+ "." +:+ d3 +:+ nl.

(** The changelog section in the words of the specification: a header line
    and one bullet line per commit. *)
Definition nl : string := String Re.newline "".

Definition section_header (from_tag to_tag : string) : string :=
  "## Changes from " +:+ from_tag +:+ " to " +:+ to_tag.

Definition bullet (base_url : string) (c : commit) : string :=
  "- [" +:+ fst c +:+ "](" +:+ base_url +:+ "/" +:+ fst c +:+ "): " +:+ snd c.

(** Every line followed by a line feed. *)
Fixpoint unlines (ls : list string) : string :=
  match ls with
  | [] => ""
  | l :: ls' => l +:+ nl +:+ unlines ls'
  end.

(** The two commands whose output the script reads. *)
Definition log_cmd (base_branch pr_branch : string) : list string :=
  ["git"; "log"; base_branch +:+ ".." +:+ pr_branch; "--pretty=format:%h %s"].

Definition tags_cmd : list string := ["git"; "tag"; "--sort=-v:refname"].

(** Reading a trace. *)
Definition is_print (e : event) : Prop :=
  match e with
  | Print _ => True
  | _ => False
  end.

(** An event that is not a failed invocation of the tool. *)
Definition succeeded (e : event) : Prop :=
  match e with
  | Invoke _ res => returncode res = 0
  | _ => True
  end.

(** A printed line that reports the failure of the invocation [cmd] with
    outcome [res]: the error line of [get_commits_from_pr] carrying its
    standard error, or the final error line carrying the exception raised
    for it. *)
Definition reports (cmd : list string) (res : completed) (e : event) : Prop :=
  match e with
  | Print (ErrorFetchingCommits err) => err = Some (stderr res)
  | Print (Error (CalledProcessError rc cmd' _)) =>
      rc = returncode res /\ cmd' = cmd
  | _ => False
  end.

(** A trace whose only failed invocation, if any, is followed by printed
    lines alone, one of which reports it. *)
Definition fail_fast (t : list event) : Prop :=
  Forall succeeded t \/
  exists good cmd res prints,
    t = good ++ Invoke cmd res :: prints /\ Forall succeeded good /\
    returncode res <> 0 /\ Forall is_print prints /\
    Exists (reports cmd res) prints.

(** The exception [e] in flight comes from a failed invocation that nothing
    but printing has followed. *)
Definition pending (e : exn) (t : list event) : Prop :=
  exists good cmd res prints err,
    t = good ++ Invoke cmd res :: prints /\ Forall succeeded good /\
    returncode res <> 0 /\ Forall is_print prints /\
    e = CalledProcessError (returncode res) cmd err.

(** A computation that, started after successful invocations only, either
    keeps it so or raises the exception of the one invocation that failed. *)
Definition safe {A} (m : M A) : Prop :=
  forall st,
    Forall succeeded (trace st) ->
    match m st with
    | (Ok _, st') => Forall succeeded (trace st')
    | (Raise e, st') => Forall succeeded (trace st') \/ pending e (trace st')
    end.

(** Two sample repositories for the examples: one where everything works
    until [git add] fails, one where [git log] itself fails. *)
Definition completed_ok (out : string) : completed := Completed 0 out "".

Definition sample_tool (st : state) (cmd : list string) : completed :=
  match cmd with
  | [_; "log"; _; _] =>
      completed_ok ("abc123 fix: bug" +:+ nl +:+ "def456 feat: thing")
  | [_; "tag"; "--sort=-v:refname"] =>
      completed_ok ("v1.2.3" +:+ nl +:+ "v1.2.2" +:+ nl)
  | [_; "add"; _] => Completed 1 "" "index locked"
  | _ => completed_ok ""
  end.

(** A repository whose latest tag lacks the "v". *)
Definition unprefixed_tool (st : state) (cmd : list string) : completed :=
  match cmd with
  | [_; "log"; _; _] => completed_ok "abc123 fix: bug"
  | [_; "tag"; "--sort=-v:refname"] => completed_ok ("1.2.3" +:+ nl)
  | _ => completed_ok ""
  end.

Definition broken_tool (st : state) (cmd : list string) : completed :=
  Completed 128 "" "fatal: not a git repository".

(** A repository with two commits and latest tag v1.2.3 where exactly the
    command [bad] fails. *)
Definition failing_on (bad : list string) (st : state) (cmd : list string)
  : completed :=
  if decide (cmd = bad) then Completed 1 "" "rejected"
  else match cmd with
       | [_; "log"; _; _] =>
           completed_ok ("abc123 fix: bug" +:+ nl +:+ "def456 feat: thing")
       | [_; "tag"; "--sort=-v:refname"] =>
           completed_ok ("v1.2.3" +:+ nl +:+ "v1.2.2" +:+ nl)
       | _ => completed_ok ""
       end.

(** More vocabulary: strings without a given character, the commands of a
    trace, the order on versions, and computations that leave every file but
    one alone. *)
Definition lacks (c : ascii) (s : string) : bool :=
  all_chars (fun a => negb (Ascii.eqb a c)) s.

Definition no_linebreak (s : string) : bool :=
  all_chars (fun a => negb (Py.is_linebreak a)) s.

Fixpoint invocations (t : list event) : list (list string) :=
  match t with
  | [] => []
  | Invoke cmd _ :: t' => cmd :: invocations t'
  | _ :: t' => invocations t'
  end.

(** Precedence of versions: major first, then minor, then patch. *)
Definition semver_lt (v w : Z * Z * Z) : Prop :=
  let '(a, b, c) := v in
  let '(a', b', c') := w in
  a < a' \/ (a = a' /\ b < b') \/ (a = a' /\ b = b' /\ c < c').

Definition keeps_others (path : string) {A} (m : M A) : Prop :=
  forall st other,
    other <> path -> files (snd (m st)) !! other = files st !! other.

(** The content of [path] is what it was, or what it was with more text
    after it. *)
Definition appended (path : string) (before after : gmap string string)
  : Prop :=
  after !! path = before !! path \/
  exists suffix,
    after !! path = Some (default "" (before !! path) +:+ suffix).

Definition only_appends (path : string) {A} (m : M A) : Prop :=
  forall st, appended path (files st) (files (snd (m st))).





(** A log line for a commit. *)
Definition log_line (c : commit) : string := fst c +:+ " " +:+ snd c.

(** [n] times the letter "v". *)
Fixpoint vs (n : nat) : string :=
  match n with
  | O => ""
  | S n' => String "v" (vs n')
  end.

(** * Properties *)

(** ** The classifier *)

Lemma determine_version_increment_cons commit_hash message commits :
  determine_version_increment ((commit_hash, message) :: commits) =
  if Py.contains "BREAKING CHANGE" message then "major"
  else if Py.contains "feat" message || Py.contains "feature" message
  then "minor"
  else if Py.contains "fix" message then "patch"
  else determine_version_increment commits.
Proof. reflexivity. Qed.

Lemma matches_rule_false message :
  matches_rule message = false ->
  Py.contains "BREAKING CHANGE" message = false /\
  Py.contains "feat" message = false /\
  Py.contains "feature" message = false /\
  Py.contains "fix" message = false.
Proof.
  unfold matches_rule. intros H.
  repeat (apply orb_false_iff in H; destruct H as [H ?]). auto.
Qed.

Lemma skip_unmatched c commits :
  no_rule c ->
  determine_version_increment (c :: commits) =
  determine_version_increment commits.
Proof.
  destruct c as [h m]. unfold no_rule. simpl snd. intros H.
  apply matches_rule_false in H as (Hb & Hf & Hfe & Hx).
  rewrite determine_version_increment_cons, Hb, Hf, Hfe, Hx. reflexivity.
Qed.

Lemma matched_decides c commits :
  matches_rule (snd c) = true ->
  determine_version_increment (c :: commits) =
  determine_version_increment [c].
Proof.
  destruct c as [h m]. simpl snd. unfold matches_rule. intros H.
  rewrite !determine_version_increment_cons.
  destruct (Py.contains "BREAKING CHANGE" m); [reflexivity|].
  destruct (Py.contains "feat" m); [reflexivity|].
  destruct (Py.contains "feature" m); [reflexivity|].
  destruct (Py.contains "fix" m); [reflexivity|discriminate].
Qed.

Lemma matched_kind c commits :
  matches_rule (snd c) = true ->
  determine_version_increment (c :: commits) =
  if Py.contains "BREAKING CHANGE" (snd c) then "major"
  else if Py.contains "feat" (snd c) || Py.contains "feature" (snd c)
  then "minor"
  else "patch".
Proof.
  destruct c as [h m]. simpl snd. unfold matches_rule. intros H.
  rewrite determine_version_increment_cons.
  destruct (Py.contains "BREAKING CHANGE" m); [reflexivity|].
  destruct (Py.contains "feat" m); [reflexivity|].
  destruct (Py.contains "feature" m); [reflexivity|].
  destruct (Py.contains "fix" m); [reflexivity|discriminate].
Qed.

(** C1. The scan is decided by the first commit whose message matches a rule:
    whatever commits follow it, the result is the kind of that commit, "major"
    when its message contains "BREAKING CHANGE", else "minor" when it contains
    "feat" or "feature", else "patch" (it then contains "fix"), which is also
    what the commit gives on its own; a later, more severe commit does not
    change it.  With "fix: bug" before "feat: X" the result is "patch". *)
Theorem first_matching_commit_wins :
  forall (skipped : list commit) (c : commit) (later : list commit),
    Forall no_rule skipped ->
    matches_rule (snd c) = true ->
    determine_version_increment (skipped ++ c :: later) =
      (if Py.contains "BREAKING CHANGE" (snd c) then "major"
       else if Py.contains "feat" (snd c) || Py.contains "feature" (snd c)
       then "minor"
       else "patch") /\
    determine_version_increment (skipped ++ c :: later) =
      determine_version_increment [c].
Proof.
  intros skipped c later Hskip Hc.
  induction Hskip as [|c0 skipped H0 _ IH]; simpl app.
  - split; [apply matched_kind, Hc | apply matched_decides, Hc].
  - rewrite skip_unmatched by exact H0. exact IH.
Qed.

Lemma first_matching_commit_wins_witness :
  (determine_version_increment
     [("a1", "unrelated"); ("a2", "fix: bug"); ("a3", "feat: X")] = "patch" /\
   determine_version_increment
     [("a1", "unrelated"); ("a2", "fix: bug"); ("a3", "feat: X")] =
   determine_version_increment [("a2", "fix: bug")]) /\
  (determine_version_increment
     [("b1", "docs"); ("b2", "feat: search");
      ("b3", "BREAKING CHANGE: drop v1")] = "minor" /\
   determine_version_increment
     [("b1", "docs"); ("b2", "feat: search");
      ("b3", "BREAKING CHANGE: drop v1")] =
   determine_version_increment [("b2", "feat: search")]) /\
  (determine_version_increment
     [("c1", "chore"); ("c2", "BREAKING CHANGE: fix the feature")] = "major" /\
   determine_version_increment
     [("c1", "chore"); ("c2", "BREAKING CHANGE: fix the feature")] =
   determine_version_increment [("c2", "BREAKING CHANGE: fix the feature")]).
Proof.
  split; [|split].
  - refine (first_matching_commit_wins
              [("a1", "unrelated")] ("a2", "fix: bug") [("a3", "feat: X")] _ _);
      [repeat constructor | reflexivity].
  - refine (first_matching_commit_wins
              [("b1", "docs")] ("b2", "feat: search")
              [("b3", "BREAKING CHANGE: drop v1")] _ _);
      [repeat constructor | reflexivity].
  - refine (first_matching_commit_wins
              [("c1", "chore")] ("c2", "BREAKING CHANGE: fix the feature")
              [] _ _);
      [repeat constructor | reflexivity].
Defined.

(** C5. Inside one message the rules are tried in a fixed order: "BREAKING
    CHANGE" gives "major" whatever else the message holds; otherwise "feat" or
    "feature" gives "minor"; otherwise "fix" gives "patch". *)
Theorem rules_in_priority_order :
  forall (commit_hash message : string) (later : list commit),
    (Py.contains "BREAKING CHANGE" message = true ->
     determine_version_increment ((commit_hash, message) :: later) = "major") /\
    (Py.contains "BREAKING CHANGE" message = false ->
     Py.contains "feat" message || Py.contains "feature" message = true ->
     determine_version_increment ((commit_hash, message) :: later) = "minor") /\
    (Py.contains "BREAKING CHANGE" message = false ->
     Py.contains "feat" message || Py.contains "feature" message = false ->
     Py.contains "fix" message = true ->
     determine_version_increment ((commit_hash, message) :: later) = "patch").
Proof.
  intros h m later. rewrite determine_version_increment_cons.
  repeat split.
  - intros ->. reflexivity.
  - intros -> ->. reflexivity.
  - intros -> -> ->. reflexivity.
Qed.

Lemma rules_in_priority_order_witness :
  determine_version_increment
    [("a1", "BREAKING CHANGE: remove API"); ("a2", "fix: bug")] = "major" /\
  determine_version_increment
    [("b1", "feat: fix the feature"); ("b2", "BREAKING CHANGE")] = "minor" /\
  determine_version_increment
    [("c1", "fix: typo"); ("c2", "feat: X")] = "patch".
Proof.
  split; [|split].
  - apply (proj1 (rules_in_priority_order
                    "a1" "BREAKING CHANGE: remove API" [("a2", "fix: bug")])).
    reflexivity.
  - apply (proj1 (proj2 (rules_in_priority_order
                    "b1" "feat: fix the feature" [("b2", "BREAKING CHANGE")])));
      reflexivity.
  - apply (proj2 (proj2 (rules_in_priority_order
                    "c1" "fix: typo" [("c2", "feat: X")])));
      reflexivity.
Defined.

(** C6. When no message of the sequence contains a keyword, the empty sequence
    included, the result is "patch"; the classifier is total and returns one
    of its three kinds on every sequence. *)
Theorem default_is_patch :
  forall commits : list commit,
    (Forall no_rule commits -> determine_version_increment commits = "patch") /\
    (determine_version_increment commits = "major" \/
     determine_version_increment commits = "minor" \/
     determine_version_increment commits = "patch").
Proof.
  intros commits. split.
  - induction 1 as [|c cs Hc _ IH]; [reflexivity|].
    rewrite skip_unmatched by exact Hc. exact IH.
  - induction commits as [|[h m] cs IH]; [auto|].
    rewrite determine_version_increment_cons.
    destruct (Py.contains "BREAKING CHANGE" m); [auto|].
    destruct (Py.contains "feat" m || Py.contains "feature" m); [auto|].
    destruct (Py.contains "fix" m); auto.
Qed.

Lemma default_is_patch_witness :
  determine_version_increment [("a1", "chore: cleanup")] = "patch" /\
  determine_version_increment [] = "patch".
Proof.
  split.
  - apply (proj1 (default_is_patch [("a1", "chore: cleanup")])).
    repeat constructor.
  - apply (proj1 (default_is_patch [])). constructor.
Defined.

(** ** Strings: digits, [int] and [str] *)

Lemma app_empty_r (s : string) : s +:+ "" = s.
Proof. induction s as [|a s IH]; simpl; [reflexivity | now rewrite IH]. Qed.

Lemma app_assoc_string (s t u : string) : (s +:+ t) +:+ u = s +:+ t +:+ u.
Proof. induction s as [|a s IH]; simpl; [reflexivity | now rewrite IH]. Qed.

Lemma all_chars_app p s t :
  all_chars p (s +:+ t) = all_chars p s && all_chars p t.
Proof.
  induction s as [|a s IH]; simpl; [reflexivity|].
  rewrite IH. now rewrite andb_assoc.
Qed.

Lemma all_chars_impl (p q : ascii -> bool) s :
  (forall a, p a = true -> q a = true) ->
  all_chars p s = true -> all_chars q s = true.
Proof.
  intros Hpq. induction s as [|a s IH]; simpl; [reflexivity|].
  intros [Ha Hs]%andb_true_iff. rewrite (Hpq a Ha). simpl. auto.
Qed.

(** What a digit is not. *)
Lemma digit_facts a :
  Py.is_digit a = true ->
  Py.is_int_space a = false /\ Ascii.eqb a "+" = false /\
  Ascii.eqb a "-" = false /\ Ascii.eqb a "." = false /\
  Ascii.eqb a "v" = false /\ Ascii.eqb a "_" = false.
Proof.
  destruct a as [[] [] [] [] [] [] [] []]; intros H;
    first [discriminate H | repeat split; reflexivity].
Qed.

Lemma space_facts a :
  Py.is_int_space a = true ->
  Py.is_digit a = false /\ Ascii.eqb a "_" = false /\ Ascii.eqb a "." = false.
Proof.
  destruct a as [[] [] [] [] [] [] [] []]; intros H;
    first [discriminate H | repeat split; reflexivity].
Qed.

Lemma digits_inv d :
  digits d = true ->
  exists a s, d = String a s /\ Py.is_digit a = true /\
              all_chars Py.is_digit s = true.
Proof.
  destruct d as [|a s]; [discriminate|]. simpl.
  intros [Ha Hs]%andb_true_iff. eauto.
Qed.

Lemma digits_all d : digits d = true -> all_chars Py.is_digit d = true.
Proof. destruct d; [discriminate | auto]. Qed.

Lemma digit_value_range a :
  Py.is_digit a = true -> 0 <= Py.digit_value a <= 9.
Proof.
  unfold Py.is_digit, Py.digit_value.
  intros [H1 H2]%andb_true_iff.
  apply N.leb_le in H1, H2. lia.
Qed.

Lemma decimal_value_nonneg d acc :
  all_chars Py.is_digit d = true -> 0 <= acc -> 0 <= decimal_value d acc.
Proof.
  revert acc. induction d as [|a d IH]; simpl; intros acc; [auto|].
  intros [Ha Hd]%andb_true_iff Hacc. apply IH; [exact Hd|].
  pose proof (digit_value_range a Ha). lia.
Qed.

(** The digit scan reads a run of digits to its end when white space (or
    nothing) follows. *)
Lemma scan_digits_app d rest acc :
  all_chars Py.is_digit d = true ->
  Py.all_space rest = true ->
  Py.scan_digits (d +:+ rest) acc false = Some (decimal_value d acc, rest).
Proof.
  intros Hd Hrest. revert acc Hd.
  induction d as [|a d IH]; simpl; intros acc Hd.
  - destruct rest as [|b rest]; [reflexivity|].
    simpl in Hrest. apply andb_true_iff in Hrest as [Hb _].
    apply space_facts in Hb as (Hb1 & Hb2 & _).
    simpl. rewrite Hb1, Hb2. reflexivity.
  - apply andb_true_iff in Hd as [Ha Hd]. rewrite Ha. apply IH, Hd.
Qed.

Lemma int_digits d rest :
  digits d = true ->
  Py.all_space rest = true ->
  Py.int (d +:+ rest) = Ok (decimal_value d 0).
Proof.
  intros (a & s & -> & Ha & Hs)%digits_inv Hrest.
  pose proof (digit_facts a Ha) as (Hsp & Hplus & Hminus & _).
  unfold Py.int. cbn [String.append Py.skip_space]. rewrite Hsp.
  unfold Py.int_literal. rewrite Hplus, Hminus, Ha.
  change (String a (s +:+ rest)) with (String a s +:+ rest).
  rewrite scan_digits_app, Hrest; [reflexivity | | exact Hrest].
  simpl. now rewrite Ha, Hs.
Qed.

(** [str] of a natural number, through the decimal numerals of the
    library. *)
Lemma uint_all_digits (u : Decimal.uint) :
  all_chars Py.is_digit (NilEmpty.string_of_uint u) = true.
Proof. induction u; simpl; auto. Qed.

Lemma uint_value_acc (u : Decimal.uint) (acc : positive) :
  decimal_value (NilEmpty.string_of_uint u) (Z.pos acc) =
  Z.pos (Pos.of_uint_acc u acc).
Proof.
  revert acc. induction u; intros acc; simpl; try reflexivity;
    match goal with
    | |- decimal_value _ ?z = _ =>
        match goal with
        | |- _ = Z.pos (Pos.of_uint_acc _ ?q) =>
            replace z with (Z.pos q) by (unfold Py.digit_value; simpl; lia)
        end
    end; auto.
Qed.

Lemma uint_value (u : Decimal.uint) :
  decimal_value (NilEmpty.string_of_uint u) 0 = Z.of_N (Pos.of_uint u).
Proof.
  induction u; simpl; try reflexivity; try exact IHu;
    match goal with
    | |- decimal_value _ ?z = Z.pos (Pos.of_uint_acc _ ?q) =>
        change z with (Z.pos q); apply uint_value_acc
    end.
Qed.

Lemma str_nonneg n :
  0 <= n -> digits (Py.str n) = true /\ decimal_value (Py.str n) 0 = n.
Proof.
  intros Hn. destruct n as [|p|p]; [split; reflexivity | | lia].
  unfold Py.str. simpl Z.to_int. cbn [NilEmpty.string_of_int]. split.
  - pose proof (DecimalPos.Unsigned.to_uint_nonnil p) as Hnil.
    pose proof (uint_all_digits (Pos.to_uint p)) as Hall.
    destruct (Pos.to_uint p); [congruence | exact Hall ..].
  - rewrite uint_value, DecimalPos.Unsigned.of_to. reflexivity.
Qed.

(** ** Parsing and formatting a version *)

Lemma split_none sep s :
  all_chars (fun a => negb (Ascii.eqb a sep)) s = true ->
  Py.split sep s = [s].
Proof.
  induction s as [|a s IH]; simpl; [reflexivity|].
  intros [Ha Hs]%andb_true_iff. apply negb_true_iff in Ha.
  rewrite Ha, (IH Hs). reflexivity.
Qed.

Lemma split_app sep s t :
  all_chars (fun a => negb (Ascii.eqb a sep)) s = true ->
  Py.split sep (s +:+ String sep t) = s :: Py.split sep t.
Proof.
  induction s as [|a s IH]; simpl.
  - intros _. now rewrite Ascii.eqb_refl.
  - intros [Ha Hs]%andb_true_iff. apply negb_true_iff in Ha.
    rewrite Ha, (IH Hs). reflexivity.
Qed.

Lemma digits_no_dot d :
  all_chars Py.is_digit d = true ->
  all_chars (fun a => negb (Ascii.eqb a ".")) d = true.
Proof.
  apply all_chars_impl. intros a Ha.
  apply digit_facts in Ha as (_ & _ & _ & -> & _). reflexivity.
Qed.

Lemma space_no_dot s :
  Py.all_space s = true ->
  all_chars (fun a => negb (Ascii.eqb a ".")) s = true.
Proof.
  induction s as [|a s IH]; simpl; [reflexivity|].
  intros [Ha Hs]%andb_true_iff.
  apply space_facts in Ha as (_ & _ & ->). simpl. auto.
Qed.

Lemma lstrip_v_digits d rest :
  digits d = true -> Py.lstrip "v" ("v" +:+ d +:+ rest) = d +:+ rest.
Proof.
  intros (a & s & -> & Ha & _)%digits_inv.
  apply digit_facts in Ha as (_ & _ & _ & _ & Hv & _).
  simpl. rewrite Hv. reflexivity.
Qed.

Lemma int_digits_only d : digits d = true -> Py.int d = Ok (decimal_value d 0).
Proof.
  intros Hd. rewrite <- (app_empty_r d) at 1. now apply int_digits.
Qed.

(** A tag of the shape of the pattern parses into the numbers its three runs
    of digits denote. *)
Lemma parse_shape d1 d2 d3 nl :
  digits d1 = true -> digits d2 = true -> digits d3 = true ->
  Py.all_space nl = true ->
  parse_version ("v" +:+ d1 +:+ "." +:+ d2 +:+ "." +:+ d3 +:+ nl) =
  Ok (decimal_value d1 0, decimal_value d2 0, decimal_value d3 0).
Proof.
  intros H1 H2 H3 Hnl. unfold parse_version.
  rewrite lstrip_v_digits by exact H1.
  change ("." +:+ d2 +:+ "." +:+ d3 +:+ nl)
    with (String "." (d2 +:+ String "." (d3 +:+ nl))).
  rewrite !split_app by (apply digits_no_dot, digits_all; assumption).
  rewrite split_none.
  2:{ rewrite all_chars_app, (digits_no_dot d3), (space_no_dot nl);
        [reflexivity | exact Hnl | apply digits_all, H3]. }
  cbn [List.map].
  rewrite (int_digits_only d1 H1), (int_digits_only d2 H2),
    (int_digits d3 nl H3 Hnl).
  reflexivity.
Qed.

Lemma parse_format major minor patch :
  0 <= major -> 0 <= minor -> 0 <= patch ->
  parse_version (format_version (major, minor, patch)) =
  Ok (major, minor, patch).
Proof.
  intros Ha Hb Hc.
  destruct (str_nonneg major Ha) as [Da Va].
  destruct (str_nonneg minor Hb) as [Db Vb].
  destruct (str_nonneg patch Hc) as [Dc Vc].
  pose proof (parse_shape _ _ _ "" Da Db Dc eq_refl) as H.
  rewrite app_empty_r, Va, Vb, Vc in H. exact H.
Qed.

(** C3. Round trip: parsing the rendering [v{major}.{minor}.{patch}] of three
    non-negative integers gives these three integers back. *)
Theorem parse_format_roundtrip :
  forall major minor patch : Z,
    0 <= major -> 0 <= minor -> 0 <= patch ->
    parse_version (format_version (major, minor, patch)) =
    Ok (major, minor, patch).
Proof. exact parse_format. Qed.

Lemma parse_format_roundtrip_witness :
  parse_version (format_version (1, 20, 0)) = Ok (1, 20, 0).
Proof. apply (parse_format_roundtrip 1 20 0); lia. Defined.

(** C2. On a version of non-negative components, "major" gives
    (major+1, 0, 0), "minor" gives (major, minor+1, 0) and "patch" gives
    (major, minor, patch+1); the call returns and raises nothing.  From
    v1.2.3: v2.0.0, v1.3.0, v1.2.4. *)
Theorem increment_version_rules :
  forall major minor patch : Z,
    0 <= major -> 0 <= minor -> 0 <= patch ->
    increment_version (format_version (major, minor, patch)) "major" =
      Ok (format_version (major + 1, 0, 0)) /\
    increment_version (format_version (major, minor, patch)) "minor" =
      Ok (format_version (major, minor + 1, 0)) /\
    increment_version (format_version (major, minor, patch)) "patch" =
      Ok (format_version (major, minor, patch + 1)) /\
    bump (major, minor, patch) "major" = (major + 1, 0, 0) /\
    bump (major, minor, patch) "minor" = (major, minor + 1, 0) /\
    bump (major, minor, patch) "patch" = (major, minor, patch + 1).
Proof.
  intros major minor patch Ha Hb Hc. unfold increment_version.
  rewrite (parse_format _ _ _ Ha Hb Hc). repeat split; reflexivity.
Qed.

Lemma increment_version_rules_witness :
  increment_version "v1.2.3" "major" = Ok "v2.0.0" /\
  increment_version "v1.2.3" "minor" = Ok "v1.3.0" /\
  increment_version "v1.2.3" "patch" = Ok "v1.2.4" /\
  bump (1, 2, 3) "major" = (2, 0, 0) /\
  bump (1, 2, 3) "minor" = (1, 3, 0) /\
  bump (1, 2, 3) "patch" = (1, 2, 4).
Proof. apply (increment_version_rules 1 2 3); lia. Defined.

(** C9. On a canonical tag (the rendering of three non-negative integers) a
    version type other than "major", "minor" and "patch" leaves the tag as it
    is: the call returns its input and raises nothing. *)
Theorem unknown_version_type_is_identity :
  forall (major minor patch : Z) (version_type : string),
    0 <= major -> 0 <= minor -> 0 <= patch ->
    version_type <> "major" -> version_type <> "minor" ->
    version_type <> "patch" ->
    increment_version (format_version (major, minor, patch)) version_type =
    Ok (format_version (major, minor, patch)).
Proof.
  intros major minor patch vt Ha Hb Hc H1 H2 H3. unfold increment_version.
  rewrite (parse_format _ _ _ Ha Hb Hc). unfold rbind, bump.
  apply String.eqb_neq in H1, H2, H3. rewrite H1, H2, H3. reflexivity.
Qed.

Lemma unknown_version_type_is_identity_witness :
  increment_version "v1.2.3" "release" = Ok "v1.2.3".
Proof.
  apply (unknown_version_type_is_identity 1 2 3 "release");
    first [lia | discriminate].
Defined.

(** ** The pattern *)

Lemma match_bol re at_start s :
  Re.match_here (Re.Bol :: re) at_start s =
  at_start && Re.match_here re at_start s.
Proof. reflexivity. Qed.

Lemma match_eol re at_start s :
  Re.match_here (Re.Eol :: re) at_start s =
  Re.at_eol s && Re.match_here re at_start s.
Proof. reflexivity. Qed.

Lemma match_chr c re at_start s :
  Re.match_here (Re.Chr c :: re) at_start s =
  match s with
  | String a s' => Ascii.eqb a c && Re.match_here re false s'
  | EmptyString => false
  end.
Proof. reflexivity. Qed.

Lemma match_digits1 re at_start s :
  Re.match_here (Re.Digits1 :: re) at_start s =
  match s with
  | String a s' =>
      Py.is_digit a &&
      (Re.match_here (Re.Digits1 :: re) false s' || Re.match_here re false s')
  | EmptyString => false
  end.
Proof. destruct s; reflexivity. Qed.

Lemma match_chr_inv c re at_start s :
  Re.match_here (Re.Chr c :: re) at_start s = true ->
  exists s', s = String c s' /\ Re.match_here re false s' = true.
Proof.
  rewrite match_chr. destruct s as [|a s']; [discriminate|].
  intros [Ha Hs]%andb_true_iff. apply Ascii.eqb_eq in Ha as ->. eauto.
Qed.

(** [\d+] takes a non-empty run of digits and leaves the rest to what
    follows it in the pattern. *)
Lemma match_digits1_inv re s :
  forall at_start,
    Re.match_here (Re.Digits1 :: re) at_start s = true ->
    exists d rest,
      digits d = true /\ s = d +:+ rest /\ Re.match_here re false rest = true.
Proof.
  induction s as [|a s IH]; intros b; rewrite match_digits1; [discriminate|].
  intros [Ha [Hmore|Hnext]%orb_true_iff]%andb_true_iff.
  - destruct (IH false Hmore) as (d & rest & Hd & -> & Hrest).
    exists (String a d), rest. repeat split; [|exact Hrest].
    simpl. rewrite Ha. now apply digits_all.
  - exists (String a ""), s. repeat split; [|exact Hnext].
    simpl. now rewrite Ha.
Qed.

Lemma match_digits1_intro re d rest :
  forall at_start,
    digits d = true ->
    Re.match_here re false rest = true ->
    Re.match_here (Re.Digits1 :: re) at_start (d +:+ rest) = true.
Proof.
  intros b (a & s & -> & Ha & Hs)%digits_inv Hrest.
  revert a b Ha Hs. induction s as [|a' s IH]; intros a b Ha Hs.
  - rewrite match_digits1. cbn [String.append].
    rewrite Ha, Hrest. now rewrite orb_true_r.
  - rewrite match_digits1. cbn [String.append].
    simpl in Hs. apply andb_true_iff in Hs as [Ha' Hs].
    rewrite Ha. change (String a' (s +:+ rest)) with (String a' s +:+ rest).
    now rewrite (IH a' false Ha' Hs).
Qed.

Lemma at_eol_inv s :
  Re.at_eol s = true -> s = "" \/ s = String Re.newline "".
Proof.
  destruct s as [|a [|b s]]; simpl; [auto | | discriminate].
  intros ->%Ascii.eqb_eq. auto.
Qed.

(** The matcher accepts exactly the strings of the shape spelled out in
    [semver_shape]. *)
Lemma validate_iff_shape tag :
  validate_semantic_version tag = true <-> semver_shape tag.
Proof.
  unfold validate_semantic_version, Re.matches, pattern. split.
  - rewrite match_bol, andb_true_l.
    intros (s1 & -> & H)%match_chr_inv.
    apply match_digits1_inv in H as (d1 & r1 & Hd1 & -> & H).
    apply match_chr_inv in H as (s2 & -> & H).
    apply match_digits1_inv in H as (d2 & r2 & Hd2 & -> & H).
    apply match_chr_inv in H as (s3 & -> & H).
    apply match_digits1_inv in H as (d3 & r3 & Hd3 & -> & H).
    rewrite match_eol in H. apply andb_true_iff in H as [H _].
    exists d1, d2, d3, r3. repeat split; try assumption.
    now apply at_eol_inv.
  - intros (d1 & d2 & d3 & nl & Hd1 & Hd2 & Hd3 & Hnl & ->).
    rewrite match_bol, andb_true_l.
    change ("v" +:+ d1 +:+ "." +:+ d2 +:+ "." +:+ d3 +:+ nl)
      with (String "v" (d1 +:+ String "." (d2 +:+ String "." (d3 +:+ nl)))).
    rewrite match_chr, Ascii.eqb_refl, andb_true_l.
    apply match_digits1_intro; [exact Hd1|].
    rewrite match_chr, Ascii.eqb_refl, andb_true_l.
    apply match_digits1_intro; [exact Hd2|].
    rewrite match_chr, Ascii.eqb_refl, andb_true_l.
    apply match_digits1_intro; [exact Hd3|]. rewrite match_eol.
    destruct Hnl as [-> | ->]; reflexivity.
Qed.

Lemma valid_tag_parses tag :
  validate_semantic_version tag = true ->
  exists major minor patch,
    parse_version tag = Ok (major, minor, patch) /\
    0 <= major /\ 0 <= minor /\ 0 <= patch.
Proof.
  intros (d1 & d2 & d3 & nl & Hd1 & Hd2 & Hd3 & Hnl & ->)%validate_iff_shape.
  exists (decimal_value d1 0), (decimal_value d2 0), (decimal_value d3 0).
  split.
  - apply parse_shape; try assumption. destruct Hnl as [-> | ->]; reflexivity.
  - repeat split; apply decimal_value_nonneg; try lia; now apply digits_all.
Qed.

(** ** Runs: what follows a failed invocation *)

Lemma succeeded_snoc t e :
  Forall succeeded t -> succeeded e -> Forall succeeded (t ++ [e]).
Proof. intros Ht He. apply Forall_app. split; [exact Ht | now constructor]. Qed.

Lemma pending_print e t l : pending e t -> pending e (t ++ [Print l]).
Proof.
  intros (good & cmd & res & prints & err & -> & Hgood & Hrc & Hpr & ->).
  exists good, cmd, res, (prints ++ [Print l]), err.
  repeat split; try assumption.
  - now rewrite <- app_assoc.
  - apply Forall_app. split; [exact Hpr | now repeat constructor].
Qed.

Lemma safe_ret {A} (a : A) : safe (ret a).
Proof. intros st Hst. exact Hst. Qed.

Lemma safe_lift {A} (r : result A) : safe (lift r).
Proof. intros st Hst. unfold lift. destruct r; auto. Qed.

Lemma safe_raise {A} (e : exn) : safe (@raise A e).
Proof. intros st Hst. left. exact Hst. Qed.

Lemma safe_bind {A B} (m : M A) (k : A -> M B) :
  safe m -> (forall a, safe (k a)) -> safe (bind m k).
Proof.
  intros Hm Hk st Hst. unfold bind. specialize (Hm st Hst).
  destruct (m st) as [[a|e] st']; [apply Hk, Hm | exact Hm].
Qed.

Lemma safe_print l : safe (print l).
Proof. intros st Hst. simpl. now apply succeeded_snoc. Qed.

Lemma safe_open_append path : safe (open_append path).
Proof. intros st Hst. simpl. now apply succeeded_snoc. Qed.

Lemma safe_write path text : safe (write path text).
Proof. intros st Hst. simpl. now apply succeeded_snoc. Qed.

Lemma safe_subprocess_run tool cmd capture_output :
  safe (subprocess_run tool cmd capture_output).
Proof.
  intros st Hst. unfold subprocess_run.
  destruct (returncode (tool st cmd) =? 0) eqn:Hrc; cbn [trace].
  - apply Z.eqb_eq in Hrc. now apply succeeded_snoc.
  - apply Z.eqb_neq in Hrc. right.
    exists (trace st), cmd, (tool st cmd), [],
      (if capture_output then Some (stderr (tool st cmd)) else None).
    repeat split; auto.
Qed.

Lemma safe_write_bullets output_file base_url commits :
  safe (write_bullets output_file base_url commits).
Proof.
  induction commits as [|[h m] cs IH]; cbn [write_bullets].
  - apply safe_ret.
  - apply safe_bind; [apply safe_write | intros _; exact IH].
Qed.

Lemma safe_update_changelog environ commits from_tag to_tag output_file :
  safe (update_changelog environ commits from_tag to_tag output_file).
Proof.
  unfold update_changelog.
  apply safe_bind; [apply safe_open_append | intros _].
  apply safe_bind; [apply safe_write | intros _].
  apply safe_write_bullets.
Qed.

Lemma safe_get_latest_tag tool : safe (get_latest_tag tool).
Proof.
  intros st Hst. unfold get_latest_tag, try_except.
  match goal with |- context [bind ?m ?k] => assert (Hb : safe (bind m k)) end.
  { apply safe_bind; [apply safe_subprocess_run | intros res].
    destruct (Py.splitlines (stdout res)); [apply safe_raise | apply safe_ret]. }
  specialize (Hb st Hst).
  match goal with |- context [bind ?m ?k st] => destruct (bind m k st) as [[a|e] st'] end;
    [exact Hb|].
  destruct e as [rc cmd err| |]; try exact Hb.
  cbn [bind print emit raise trace]. destruct Hb as [Hb|Hb].
  - left. now apply succeeded_snoc.
  - right. now apply pending_print.
Qed.

(** The part of the run after the commits are known to be there
    (lines 119-139). *)
Lemma safe_release environ tool base_branch commits :
  safe
    (let* from_tag := get_latest_tag tool in
     print (LatestTag from_tag);;
     (if validate_semantic_version from_tag then ret tt
      else raise (ValueError
                    (Msg ("Latest tag " +:+ from_tag +:+ " is not valid."))));;
     let increment_type := determine_version_increment commits in
     let* new_tag := lift (increment_version from_tag increment_type) in
     print (NewTag new_tag);;
     subprocess_run tool ["git"; "tag"; new_tag] false;;
     subprocess_run tool ["git"; "push"; "origin"; new_tag] false;;
     update_changelog environ commits from_tag new_tag "changelog.md";;
     subprocess_run tool ["git"; "add"; "changelog.md"] false;;
     subprocess_run tool
       ["git"; "commit"; "-m"; "Update changelog for " +:+ new_tag] false;;
     subprocess_run tool ["git"; "push"; "origin"; base_branch] false;;
     print (ChangelogUpdated new_tag)).
Proof.
  apply safe_bind; [apply safe_get_latest_tag | intros from_tag].
  apply safe_bind; [apply safe_print | intros _].
  apply safe_bind;
    [destruct (validate_semantic_version from_tag);
       [apply safe_ret | apply safe_raise] | intros _].
  cbv zeta.
  apply safe_bind; [apply safe_lift | intros new_tag].
  apply safe_bind; [apply safe_print | intros _].
  apply safe_bind; [apply safe_subprocess_run | intros _].
  apply safe_bind; [apply safe_subprocess_run | intros _].
  apply safe_bind; [apply safe_update_changelog | intros _].
  apply safe_bind; [apply safe_subprocess_run | intros _].
  apply safe_bind; [apply safe_subprocess_run | intros _].
  apply safe_bind; [apply safe_subprocess_run | intros _].
  apply safe_print.
Qed.

Lemma bind_unfold {A B} (m : M A) (k : A -> M B) st :
  bind m k st =
  match m st with
  | (Ok a, st') => k a st'
  | (Raise e, st') => (Raise e, st')
  end.
Proof. reflexivity. Qed.

Lemma commits_of_lines_raise ls e :
  commits_of_lines ls = Raise e -> e = IndexError.
Proof.
  induction ls as [|l ls IH]; simpl; [discriminate|].
  unfold commit_of_line.
  destruct (Py.split1 " " l) as [|h [|m ws]]; simpl; try congruence.
  destruct (commits_of_lines ls); simpl; [discriminate|].
  intros [= <-]. now apply IH.
Qed.

(** [get_commits_from_pr] either leaves a trace without failure, or has
    swallowed the failure of git log: it has printed it and returns no
    commits. *)
Lemma get_commits_cases tool base_branch pr_branch st :
  Forall succeeded (trace st) ->
  let res := tool st (log_cmd base_branch pr_branch) in
  match get_commits_from_pr tool base_branch pr_branch st with
  | (Ok commits, st') =>
      Forall succeeded (trace st') \/
      (commits = [] /\ returncode res <> 0 /\
       trace st' =
       trace st ++ [Invoke (log_cmd base_branch pr_branch) res;
                    Print (ErrorFetchingCommits (Some (stderr res)))])
  | (Raise e, st') => Forall succeeded (trace st')
  end.
Proof.
  intros Hst res. unfold get_commits_from_pr, try_except.
  rewrite bind_unfold. unfold subprocess_run. fold (log_cmd base_branch pr_branch).
  fold res. destruct (returncode res =? 0) eqn:Hrc.
  - apply Z.eqb_eq in Hrc. unfold lift.
    destruct (commits_of_lines (Py.splitlines (stdout res))) as [cs|e] eqn:Hcs.
    + left. now apply succeeded_snoc.
    + apply commits_of_lines_raise in Hcs as ->. cbn [raise trace].
      now apply succeeded_snoc.
  - apply Z.eqb_neq in Hrc. cbn [bind print emit ret trace]. right.
    repeat split; [exact Hrc|]. now rewrite <- app_assoc.
Qed.

Lemma fail_fast_of_pending e t :
  pending e t -> fail_fast (t ++ [Print (Error e)]).
Proof.
  intros (good & cmd & res & prints & err & -> & Hgood & Hrc & Hpr & ->).
  right.
  exists good, cmd, res,
    (prints ++ [Print (Error (CalledProcessError (returncode res) cmd err))]).
  repeat split; try assumption.
  - now rewrite <- app_assoc.
  - apply Forall_app. split; [exact Hpr | now repeat constructor].
  - apply Exists_app. right. constructor. simpl. auto.
Qed.

(** Every run leaves a fail-fast trace. *)
Lemma run_fail_fast environ tool fs base_branch pr_branch :
  fail_fast (trace (run environ tool fs base_branch pr_branch)).
Proof.
  unfold run, generate_pr_based_changelog, try_except.
  rewrite bind_unfold.
  pose proof (get_commits_cases tool base_branch pr_branch (State [] fs)
                (Forall_nil_2 _)) as Hc.
  cbv zeta in Hc.
  destruct (get_commits_from_pr tool base_branch pr_branch (State [] fs))
    as [[commits|e] st1].
  - destruct Hc as [Hclean | (-> & Hrc & Htr)].
    + destruct commits as [|c cs].
      * left. cbn. now apply succeeded_snoc.
      * pose proof (safe_release environ tool base_branch (c :: cs) st1 Hclean)
          as Hs.
        match type of Hs with
        | match ?m with _ => _ end => destruct m as [[[]|e] st2]
        end.
        -- left. exact Hs.
        -- destruct Hs as [Hs|Hs]; cbn.
           ++ left. now apply succeeded_snoc.
           ++ now apply fail_fast_of_pending.
    + right. cbn. rewrite Htr. cbn.
      eexists [], _, _, [_; _].
      split; [reflexivity|]. split; [constructor|]. split; [exact Hrc|].
      split; [repeat constructor | constructor; reflexivity].
  - left. cbn. now apply succeeded_snoc.
Qed.

(** In a fail-fast trace a failed invocation is the first one, and what
    follows it is printing. *)
Lemma fail_fast_inv t before cmd res after :
  fail_fast t ->
  t = before ++ Invoke cmd res :: after ->
  returncode res <> 0 ->
  Forall succeeded before /\ Forall is_print after /\
  Exists (reports cmd res) after.
Proof.
  intros [Hall | (good & cmd' & res' & prints & -> & Hgood & Hrc' & Hpr & Hrep)]
    Heq Hrc.
  - subst t. apply Forall_app in Hall as [_ Hall].
    inversion Hall as [|? ? Hbad _]. simpl in Hbad. contradiction.
  - revert before Heq. induction Hgood as [|g good Hg Hgood IH]; intros before Heq.
    + destruct before as [|b before]; simpl in Heq.
      * injection Heq as <- <- <-. auto.
      * injection Heq as <- ->.
        apply Forall_app in Hpr as [_ Hpr].
        inversion Hpr as [|? ? Hbad _]. destruct Hbad.
    + destruct before as [|b before]; simpl in Heq.
      * injection Heq as -> _. simpl in Hg. contradiction.
      * injection Heq as <- Heq.
        destruct (IH before Heq) as (H1 & H2 & H3). auto.
Qed.

Lemma log_failure_trace environ tool fs base_branch pr_branch :
  let res := tool (State [] fs) (log_cmd base_branch pr_branch) in
  returncode res <> 0 ->
  run environ tool fs base_branch pr_branch =
  State [Invoke (log_cmd base_branch pr_branch) res;
         Print (ErrorFetchingCommits (Some (stderr res)));
         Print (NoCommitsFound base_branch pr_branch)] fs.
Proof.
  intros res Hrc. unfold run, generate_pr_based_changelog, try_except.
  rewrite bind_unfold. unfold get_commits_from_pr, try_except.
  rewrite bind_unfold. unfold subprocess_run.
  fold (log_cmd base_branch pr_branch). fold res.
  apply Z.eqb_neq in Hrc. rewrite Hrc. reflexivity.
Qed.

(** C7. A non-zero exit status of git ends the run: the invocations before the
    failed one all succeeded, and after it the run only prints, among other
    things a line that reports the failure; nothing is invoked again and
    nothing is written.  When it is the commit log that fails, the run prints
    the failure and the no-commits line and stops, the files untouched. *)
Theorem tool_failure_is_fatal :
  forall (environ : gmap string string)
         (tool : state -> list string -> completed)
         (fs : gmap string string) (base_branch pr_branch : string),
    (forall before cmd res after,
        trace (run environ tool fs base_branch pr_branch) =
        before ++ Invoke cmd res :: after ->
        returncode res <> 0 ->
        Forall succeeded before /\ Forall is_print after /\
        Exists (reports cmd res) after) /\
    (let res := tool (State [] fs) (log_cmd base_branch pr_branch) in
     returncode res <> 0 ->
     run environ tool fs base_branch pr_branch =
     State [Invoke (log_cmd base_branch pr_branch) res;
            Print (ErrorFetchingCommits (Some (stderr res)));
            Print (NoCommitsFound base_branch pr_branch)] fs).
Proof.
  intros environ tool fs base_branch pr_branch. split.
  - intros before cmd res after Heq Hrc.
    exact (fail_fast_inv _ before cmd res after
             (run_fail_fast environ tool fs base_branch pr_branch) Heq Hrc).
  - apply log_failure_trace.
Qed.

Lemma tool_failure_is_fatal_witness :
  (Forall succeeded
     [Invoke (log_cmd "develop" "feature/new-feature")
        (completed_ok ("abc123 fix: bug" +:+ nl +:+ "def456 feat: thing"));
      Invoke tags_cmd (completed_ok ("v1.2.3" +:+ nl +:+ "v1.2.2" +:+ nl));
      Print (LatestTag "v1.2.3"); Print (NewTag "v1.2.4");
      Invoke ["git"; "tag"; "v1.2.4"] (completed_ok "");
      Invoke ["git"; "push"; "origin"; "v1.2.4"] (completed_ok "");
      OpenAppend "changelog.md";
      Write "changelog.md"
        (nl +:+ "## Changes from v1.2.3 to v1.2.4" +:+ nl +:+ nl);
      Write "changelog.md"
        ("- [abc123](https://github.com/unknown/repo/commit/abc123): fix: bug"
         +:+ nl);
      Write "changelog.md"
        ("- [def456](https://github.com/unknown/repo/commit/def456): feat: thing"
         +:+ nl)] /\
   Forall is_print
     [Print (Error (CalledProcessError 1 ["git"; "add"; "changelog.md"] None))] /\
   Exists
     (reports ["git"; "add"; "changelog.md"] (Completed 1 "" "index locked"))
     [Print (Error (CalledProcessError 1 ["git"; "add"; "changelog.md"] None))]) /\
  run ∅ broken_tool ∅ "develop" "feature/new-feature" =
  State [Invoke (log_cmd "develop" "feature/new-feature")
           (Completed 128 "" "fatal: not a git repository");
         Print (ErrorFetchingCommits (Some "fatal: not a git repository"));
         Print (NoCommitsFound "develop" "feature/new-feature")] ∅.
Proof.
  split.
  - apply (proj1 (tool_failure_is_fatal
                    ∅ sample_tool ∅ "develop" "feature/new-feature")).
    + vm_compute. reflexivity.
    + vm_compute. discriminate.
  - apply (proj2 (tool_failure_is_fatal
                    ∅ broken_tool ∅ "develop" "feature/new-feature")).
    vm_compute. discriminate.
Defined.

(** ** The latest tag *)

(** C10. When the tag listing succeeds, [get_latest_tag] raises
    ValueError("No tags found in the repository.") on an empty listing, and
    returns the first line of the listing otherwise. *)
Theorem get_latest_tag_cases :
  forall (tool : state -> list string -> completed) (st : state),
    let res := tool st tags_cmd in
    let st' := State (trace st ++ [Invoke tags_cmd res]) (files st) in
    returncode res = 0 ->
    (stdout res = "" ->
     get_latest_tag tool st =
     (Raise (ValueError (Msg "No tags found in the repository.")), st')) /\
    (Py.splitlines (stdout res) = [] ->
     get_latest_tag tool st =
     (Raise (ValueError (Msg "No tags found in the repository.")), st')) /\
    (forall tag tags,
        Py.splitlines (stdout res) = tag :: tags ->
        get_latest_tag tool st = (Ok tag, st')).
Proof.
  intros tool st res st' Hrc.
  assert (Hrun : subprocess_run tool tags_cmd true st = (Ok res, st')).
  { unfold subprocess_run. fold res. apply Z.eqb_eq in Hrc. now rewrite Hrc. }
  unfold get_latest_tag, try_except. fold tags_cmd.
  rewrite bind_unfold, Hrun.
  split; [|split].
  - intros ->. reflexivity.
  - intros ->. reflexivity.
  - intros tag tags ->. reflexivity.
Qed.

Lemma get_latest_tag_cases_witness :
  get_latest_tag (fun _ _ => completed_ok "") (State [] ∅) =
  (Raise (ValueError (Msg "No tags found in the repository.")),
   State [Invoke tags_cmd (completed_ok "")] ∅) /\
  get_latest_tag sample_tool (State [] ∅) =
  (Ok "v1.2.3",
   State [Invoke tags_cmd (completed_ok ("v1.2.3" +:+ nl +:+ "v1.2.2" +:+ nl))]
         ∅).
Proof.
  split.
  - apply (proj1 (get_latest_tag_cases (fun _ _ => completed_ok "")
                    (State [] ∅) eq_refl)).
    reflexivity.
  - apply (proj2 (proj2 (get_latest_tag_cases sample_tool (State [] ∅) eq_refl))
             "v1.2.3" ["v1.2.2"]).
    reflexivity.
Defined.

(** ** The changelog *)

Lemma write_spec path text st content :
  files st !! path = Some content ->
  write path text st =
  (Ok tt,
   State (trace st ++ [Write path text]) (<[path := content +:+ text]> (files st))).
Proof. intros H. unfold write. rewrite H. reflexivity. Qed.

Lemma write_bullets_spec path base_url commits :
  forall st content,
    files st !! path = Some content ->
    let out := write_bullets path base_url commits st in
    fst out = Ok tt /\
    files (snd out) !! path =
      Some (content +:+ unlines (List.map (bullet base_url) commits)) /\
    (forall other, other <> path ->
                   files (snd out) !! other = files st !! other) /\
    trace (snd out) =
      trace st ++
      List.map (fun c => Write path (bullet base_url c +:+ nl)) commits.
Proof.
  induction commits as [|[h m] cs IH]; intros st content Hst; cbn [write_bullets].
  - cbn. rewrite app_empty_r, app_nil_r. auto.
  - rewrite bind_unfold, (write_spec _ _ _ _ Hst).
    replace ("- [" +:+ h +:+ "](" +:+ (base_url +:+ "/" +:+ h) +:+ "): " +:+
             m +:+ String Re.newline "")
      with (bullet base_url (h, m) +:+ nl)
      by (unfold bullet, nl; cbn [fst snd]; now rewrite !app_assoc_string).
    match goal with
    | |- context [write_bullets _ _ _ ?s] =>
        destruct (IH s (content +:+ bullet base_url (h, m) +:+ nl))
          as (Hok & Hfile & Hother & Htrace)
    end.
    { cbn [files]. now rewrite lookup_insert_eq. }
    cbv zeta. split; [exact Hok|]. split; [|split].
    + rewrite Hfile. cbn [List.map unlines]. f_equal.
      now rewrite !app_assoc_string.
    + intros other Hne. rewrite (Hother other Hne). cbn [files].
      now rewrite lookup_insert_ne.
    + rewrite Htrace. cbn [trace List.map]. now rewrite <- app_assoc.
Qed.

(** C8. [update_changelog] appends to the file one section: the header
    [## Changes from {from_tag} to {to_tag}] set off by blank lines, then one
    bullet line [- [{hash}]({base_url}/{hash}): {message}] per commit, in
    order; [base_url] is built from GITHUB_REPOSITORY, "unknown/repo" when it
    is not set.  Other files are left alone and nothing is raised. *)
Theorem update_changelog_appends :
  forall (environ : gmap string string) (commits : list commit)
         (from_tag to_tag output_file : string) (st : state),
    let github_repo :=
      default "unknown/repo" (environ !! "GITHUB_REPOSITORY") in
    let base_url := "https://github.com/" +:+ github_repo +:+ "/commit" in
    let heading := nl +:+ section_header from_tag to_tag +:+ nl +:+ nl in
    let out := update_changelog environ commits from_tag to_tag output_file st in
    fst out = Ok tt /\
    files (snd out) !! output_file =
      Some (default "" (files st !! output_file) +:+ heading +:+
            unlines (List.map (bullet base_url) commits)) /\
    (forall other, other <> output_file ->
                   files (snd out) !! other = files st !! other) /\
    trace (snd out) =
      trace st ++ OpenAppend output_file :: Write output_file heading ::
      List.map (fun c => Write output_file (bullet base_url c +:+ nl)) commits /\
    (environ !! "GITHUB_REPOSITORY" = None ->
     base_url = "https://github.com/unknown/repo/commit").
Proof.
  intros environ commits from_tag to_tag output_file st
    github_repo base_url heading out.
  subst out. unfold update_changelog. fold github_repo. fold base_url.
  rewrite bind_unfold. unfold open_append.
  rewrite bind_unfold.
  rewrite (write_spec _ _ _ (default "" (files st !! output_file)))
    by (cbn [files]; now rewrite lookup_insert_eq).
  replace (String Re.newline "## Changes from " +:+ from_tag +:+ " to " +:+
           to_tag +:+ String Re.newline (String Re.newline ""))
    with heading
    by (unfold heading, section_header, nl; now rewrite !app_assoc_string).
  match goal with
  | |- context [write_bullets _ _ _ ?s] =>
      destruct (write_bullets_spec output_file base_url commits s
                  (default "" (files st !! output_file) +:+ heading))
        as (Hok & Hfile & Hother & Htrace)
  end.
  { cbn [files]. now rewrite lookup_insert_eq. }
  split; [exact Hok|]. split; [|split; [|split]].
  - rewrite Hfile. now rewrite !app_assoc_string.
  - intros other Hne. rewrite (Hother other Hne). cbn [files].
    now rewrite !lookup_insert_ne.
  - rewrite Htrace. cbn [trace]. now rewrite <- !app_assoc.
  - intros Hnone. subst base_url github_repo. now rewrite Hnone.
Qed.

Lemma update_changelog_appends_witness :
  files (snd (update_changelog ∅ [("abc123", "fix: bug"); ("def456", "feat: X")]
                "v1.2.3" "v1.3.0" "changelog.md"
                (State [] {["changelog.md" := "# Changelog" +:+ nl]})))
    !! "changelog.md" =
  Some ("# Changelog" +:+ nl +:+ nl +:+
        "## Changes from v1.2.3 to v1.3.0" +:+ nl +:+ nl +:+
        "- [abc123](https://github.com/unknown/repo/commit/abc123): fix: bug"
        +:+ nl +:+
        "- [def456](https://github.com/unknown/repo/commit/def456): feat: X"
        +:+ nl).
Proof.
  etransitivity.
  - exact (proj1 (proj2 (update_changelog_appends
                           ∅ [("abc123", "fix: bug"); ("def456", "feat: X")]
                           "v1.2.3" "v1.3.0" "changelog.md"
                           (State [] {["changelog.md" := "# Changelog" +:+ nl]})))).
  - vm_compute. reflexivity.
Defined.

(** ** Validation before parsing *)

Lemma get_commits_ok tool base_branch pr_branch st commits :
  let res := tool st (log_cmd base_branch pr_branch) in
  returncode res = 0 ->
  commits_of_lines (Py.splitlines (stdout res)) = Ok commits ->
  get_commits_from_pr tool base_branch pr_branch st =
  (Ok commits,
   State (trace st ++ [Invoke (log_cmd base_branch pr_branch) res]) (files st)).
Proof.
  intros res Hrc Hcs. unfold get_commits_from_pr, try_except.
  rewrite bind_unfold. unfold subprocess_run.
  fold (log_cmd base_branch pr_branch). fold res.
  apply Z.eqb_eq in Hrc. rewrite Hrc. unfold lift. now rewrite Hcs.
Qed.

Lemma get_latest_tag_first tool st tag tags :
  let res := tool st tags_cmd in
  returncode res = 0 ->
  Py.splitlines (stdout res) = tag :: tags ->
  get_latest_tag tool st =
  (Ok tag, State (trace st ++ [Invoke tags_cmd res]) (files st)).
Proof.
  intros res Hrc Htags. unfold get_latest_tag, try_except.
  rewrite bind_unfold. unfold subprocess_run. fold tags_cmd. fold res.
  apply Z.eqb_eq in Hrc. now rewrite Hrc, Htags.
Qed.

(** The guard of lines 122-123: a latest tag that fails the validation ends
    the run with a ValueError before anything is parsed or tagged. *)
Lemma invalid_latest_tag_raises environ tool fs base_branch pr_branch
    c cs tag tags :
  let log := tool (State [] fs) (log_cmd base_branch pr_branch) in
  let listing :=
    tool (State [Invoke (log_cmd base_branch pr_branch) log] fs) tags_cmd in
  returncode log = 0 ->
  commits_of_lines (Py.splitlines (stdout log)) = Ok (c :: cs) ->
  returncode listing = 0 ->
  Py.splitlines (stdout listing) = tag :: tags ->
  validate_semantic_version tag = false ->
  run environ tool fs base_branch pr_branch =
  State [Invoke (log_cmd base_branch pr_branch) log;
         Invoke tags_cmd listing;
         Print (LatestTag tag);
         Print (Error (ValueError
                         (Msg ("Latest tag " +:+ tag +:+ " is not valid."))))]
        fs.
Proof.
  intros log listing Hlog Hcs Hlist Htags Hbad.
  unfold run, generate_pr_based_changelog, try_except.
  rewrite bind_unfold.
  rewrite (get_commits_ok tool base_branch pr_branch (State [] fs) (c :: cs)
             Hlog Hcs).
  fold log. cbn [trace files app].
  rewrite bind_unfold.
  rewrite (get_latest_tag_first tool _ tag tags Hlist Htags).
  fold listing. cbn [trace files app].
  rewrite !bind_unfold. cbn [print emit trace files app].
  rewrite Hbad. reflexivity.
Qed.

(** C4, as the code has it.  The pattern is checked by
    [validate_semantic_version], not by the parse of [increment_version]:
    the validation accepts exactly the strings of the shape of the pattern; a
    tag that passes it parses, without error, into three non-negative
    components; a latest tag that fails it makes the run raise a ValueError
    before the tag is parsed.  "v1.2.3" is valid and parses to (1, 2, 3);
    "1.2.3", "v1.2" and "v1.2.3.4" are invalid; on its own the parse raises
    for "v1.2" and "v1.2.3.4". *)
Theorem validated_tag_parses :
  forall tag : string,
    (validate_semantic_version tag = true <-> semver_shape tag) /\
    (validate_semantic_version tag = true ->
     exists major minor patch,
       parse_version tag = Ok (major, minor, patch) /\
       0 <= major /\ 0 <= minor /\ 0 <= patch) /\
    (validate_semantic_version tag = false ->
     forall environ tool fs base_branch pr_branch c cs tags,
       let log := tool (State [] fs) (log_cmd base_branch pr_branch) in
       let listing :=
         tool (State [Invoke (log_cmd base_branch pr_branch) log] fs)
              tags_cmd in
       returncode log = 0 ->
       commits_of_lines (Py.splitlines (stdout log)) = Ok (c :: cs) ->
       returncode listing = 0 ->
       Py.splitlines (stdout listing) = tag :: tags ->
       run environ tool fs base_branch pr_branch =
       State [Invoke (log_cmd base_branch pr_branch) log;
              Invoke tags_cmd listing;
              Print (LatestTag tag);
              Print (Error (ValueError
                              (Msg ("Latest tag " +:+ tag +:+
                                    " is not valid."))))]
             fs) /\
    (validate_semantic_version "v1.2.3" = true /\
     parse_version "v1.2.3" = Ok (1, 2, 3) /\
     validate_semantic_version "1.2.3" = false /\
     validate_semantic_version "v1.2" = false /\
     validate_semantic_version "v1.2.3.4" = false /\
     parse_version "v1.2" = Raise (ValueError (NotEnoughValues 3 2)) /\
     parse_version "v1.2.3.4" = Raise (ValueError (TooManyValues 3))).
Proof.
  intros tag. split; [apply validate_iff_shape|].
  split; [apply valid_tag_parses|]. split.
  - intros Hbad environ tool fs base_branch pr_branch c cs tags log listing
      Hlog Hcs Hlist Htags.
    now apply (invalid_latest_tag_raises environ tool fs base_branch pr_branch
                 c cs tag tags).
  - repeat split; reflexivity.
Qed.

Lemma validated_tag_parses_witness :
  (exists major minor patch,
      parse_version "v10.0.27" = Ok (major, minor, patch) /\
      0 <= major /\ 0 <= minor /\ 0 <= patch) /\
  run ∅ unprefixed_tool ∅ "develop" "feature/new-feature" =
  State [Invoke (log_cmd "develop" "feature/new-feature")
           (completed_ok "abc123 fix: bug");
         Invoke tags_cmd (completed_ok ("1.2.3" +:+ nl));
         Print (LatestTag "1.2.3");
         Print (Error (ValueError (Msg "Latest tag 1.2.3 is not valid.")))] ∅.
Proof.
  split.
  - apply (proj1 (proj2 (validated_tag_parses "v10.0.27"))). reflexivity.
  - apply (proj1 (proj2 (proj2 (validated_tag_parses "1.2.3")))
             eq_refl ∅ unprefixed_tool ∅ "develop" "feature/new-feature"
             ("abc123", "fix: bug") [] []); reflexivity.
Defined.

(** The claim C4 as the specification words it fails: the parse of
    [increment_version] takes "1.2.3", which does not match the pattern, and
    the increment goes through. *)
Lemma parse_accepts_unprefixed_tag :
  validate_semantic_version "1.2.3" = false /\
  parse_version "1.2.3" = Ok (1, 2, 3) /\
  increment_version "1.2.3" "patch" = Ok "v1.2.4".
Proof. repeat split; reflexivity. Qed.

(** * Further properties of the code *)

(** ** Reading the commit log *)

Lemma split1_no_sep sep s : lacks sep s = true -> Py.split1 sep s = [s].
Proof.
  unfold lacks. induction s as [|a s IH]; simpl; [reflexivity|].
  intros [Ha Hs]%andb_true_iff. apply negb_true_iff in Ha.
  rewrite Ha, (IH Hs). reflexivity.
Qed.

Lemma split1_at_sep sep h m :
  lacks sep h = true -> Py.split1 sep (h +:+ String sep m) = [h; m].
Proof.
  unfold lacks. induction h as [|a h IH]; simpl.
  - intros _. now rewrite Ascii.eqb_refl.
  - intros [Ha Hh]%andb_true_iff. apply negb_true_iff in Ha.
    rewrite Ha, (IH Hh). reflexivity.
Qed.

(** What [split1] returns: the string itself when it has no separator, else
    the two sides of the first separator. *)
Lemma split1_cases sep s :
  (lacks sep s = true /\ Py.split1 sep s = [s]) \/
  (exists h m, lacks sep h = true /\ s = h +:+ String sep m /\
               Py.split1 sep s = [h; m]).
Proof.
  induction s as [|a s IH].
  - left. split; reflexivity.
  - destruct (Ascii.eqb a sep) eqn:Ha.
    + right. exists "", s. apply Ascii.eqb_eq in Ha as ->.
      repeat split. simpl. now rewrite Ascii.eqb_refl.
    + destruct IH as [[Hs Heq] | (h & m & Hh & -> & Heq)].
      * left. split; [unfold lacks in *; simpl; now rewrite Ha, Hs|].
        simpl. now rewrite Ha, Heq.
      * right. exists (String a h), m. repeat split.
        -- unfold lacks in *. simpl. now rewrite Ha, Hh.
        -- simpl. now rewrite Ha, Heq.
Qed.

(** X1. A log line is cut at its first space: a hash without space, a space
    and a subject give back the hash and the subject, further spaces staying
    in the subject; and every line that is read comes apart this way. *)
Theorem commit_of_line_roundtrip :
  forall (l commit_hash message : string),
    (lacks " " commit_hash = true ->
     commit_of_line (commit_hash +:+ " " +:+ message) =
     Ok (commit_hash, message)) /\
    (commit_of_line l = Ok (commit_hash, message) ->
     l = commit_hash +:+ " " +:+ message /\ lacks " " commit_hash = true).
Proof.
  intros l h m. split.
  - intros Hh. unfold commit_of_line.
    change (h +:+ " " +:+ m) with (h +:+ String " " m).
    now rewrite split1_at_sep.
  - unfold commit_of_line.
    destruct (split1_cases " " l) as [[_ ->] | (h' & m' & Hh' & -> & ->)];
      [discriminate|].
    intros [= <- <-]. split; [reflexivity | exact Hh'].
Qed.

Lemma commit_of_line_roundtrip_witness :
  commit_of_line ("abc123" +:+ " " +:+ "fix: a bug") =
  Ok ("abc123", "fix: a bug") /\
  ("abc123 fix: a bug" = "abc123" +:+ " " +:+ "fix: a bug" /\
   lacks " " "abc123" = true).
Proof.
  split.
  - apply (proj1 (commit_of_line_roundtrip "" "abc123" "fix: a bug")).
    reflexivity.
  - apply (proj2 (commit_of_line_roundtrip
                    "abc123 fix: a bug" "abc123" "fix: a bug")).
    reflexivity.
Defined.

Lemma commit_of_line_no_space l :
  lacks " " l = true -> commit_of_line l = Raise IndexError.
Proof.
  intros Hl. unfold commit_of_line. now rewrite split1_no_sep.
Qed.

Lemma commits_of_lines_bad good l rest :
  Forall (fun g => lacks " " g = false) good ->
  lacks " " l = true ->
  commits_of_lines (good ++ l :: rest) = Raise IndexError.
Proof.
  intros Hgood Hl. induction Hgood as [|g good Hg _ IH]; simpl.
  - now rewrite commit_of_line_no_space.
  - unfold commit_of_line at 1.
    destruct (split1_cases " " g) as [[Hg' _] | (h & m & _ & _ & ->)];
      [congruence|].
    simpl. now rewrite IH.
Qed.

(** X2. A log line without any space makes the list comprehension of
    [get_commits_from_pr] raise IndexError; the handler of that function does
    not catch it, and the run prints it and stops: no tag is listed or
    created and no file is touched. *)
Theorem spaceless_log_line_ends_run :
  forall (environ : gmap string string)
         (tool : state -> list string -> completed)
         (fs : gmap string string) (base_branch pr_branch : string)
         (good : list string) (l : string) (rest : list string),
    let log := tool (State [] fs) (log_cmd base_branch pr_branch) in
    returncode log = 0 ->
    Py.splitlines (stdout log) = good ++ l :: rest ->
    Forall (fun g => lacks " " g = false) good ->
    lacks " " l = true ->
    run environ tool fs base_branch pr_branch =
    State [Invoke (log_cmd base_branch pr_branch) log;
           Print (Error IndexError)] fs.
Proof.
  intros environ tool fs base_branch pr_branch good l rest log
    Hrc Hlines Hgood Hl.
  unfold run, generate_pr_based_changelog, try_except.
  rewrite bind_unfold. unfold get_commits_from_pr, try_except.
  rewrite bind_unfold. unfold subprocess_run.
  fold (log_cmd base_branch pr_branch). fold log.
  apply Z.eqb_eq in Hrc. rewrite Hrc. unfold lift.
  rewrite Hlines, (commits_of_lines_bad good l rest Hgood Hl). reflexivity.
Qed.

Lemma spaceless_log_line_ends_run_witness :
  run ∅ (fun _ _ => completed_ok ("abc123 fix: bug" +:+ nl +:+ "def456"))
      ∅ "develop" "feature/new-feature" =
  State [Invoke (log_cmd "develop" "feature/new-feature")
           (completed_ok ("abc123 fix: bug" +:+ nl +:+ "def456"));
         Print (Error IndexError)] ∅.
Proof.
  apply (spaceless_log_line_ends_run
           ∅ (fun _ _ => completed_ok ("abc123 fix: bug" +:+ nl +:+ "def456"))
           ∅ "develop" "feature/new-feature" ["abc123 fix: bug"] "def456" []).
  - reflexivity.
  - reflexivity.
  - repeat constructor.
  - reflexivity.
Defined.

(** X3. When git log succeeds with an empty output the run prints the
    no-commits line and does nothing else: git is not invoked again and no
    file is touched. *)
Theorem empty_log_ends_run :
  forall (environ : gmap string string)
         (tool : state -> list string -> completed)
         (fs : gmap string string) (base_branch pr_branch : string),
    let log := tool (State [] fs) (log_cmd base_branch pr_branch) in
    returncode log = 0 ->
    stdout log = "" ->
    run environ tool fs base_branch pr_branch =
    State [Invoke (log_cmd base_branch pr_branch) log;
           Print (NoCommitsFound base_branch pr_branch)] fs.
Proof.
  intros environ tool fs base_branch pr_branch log Hrc Hout.
  unfold run, generate_pr_based_changelog, try_except.
  rewrite bind_unfold.
  rewrite (get_commits_ok tool base_branch pr_branch (State [] fs) []).
  - reflexivity.
  - exact Hrc.
  - fold log. now rewrite Hout.
Qed.

Lemma empty_log_ends_run_witness :
  run ∅ (fun _ _ => completed_ok "") ∅ "develop" "feature/new-feature" =
  State [Invoke (log_cmd "develop" "feature/new-feature") (completed_ok "");
         Print (NoCommitsFound "develop" "feature/new-feature")] ∅.
Proof.
  apply (empty_log_ends_run ∅ (fun _ _ => completed_ok "") ∅
           "develop" "feature/new-feature"); reflexivity.
Defined.

(** X4. When the tag listing fails, [get_latest_tag] prints its standard
    error and raises the CalledProcessError again; the run then prints that
    exception too and stops, so the failure is reported twice; nothing is
    tagged and no file is touched. *)
Theorem tag_listing_failure_ends_run :
  forall (environ : gmap string string)
         (tool : state -> list string -> completed)
         (fs : gmap string string) (base_branch pr_branch : string)
         (c : commit) (cs : list commit),
    let log := tool (State [] fs) (log_cmd base_branch pr_branch) in
    let listing :=
      tool (State [Invoke (log_cmd base_branch pr_branch) log] fs) tags_cmd in
    returncode log = 0 ->
    commits_of_lines (Py.splitlines (stdout log)) = Ok (c :: cs) ->
    returncode listing <> 0 ->
    run environ tool fs base_branch pr_branch =
    State [Invoke (log_cmd base_branch pr_branch) log;
           Invoke tags_cmd listing;
           Print (ErrorFetchingTags (Some (stderr listing)));
           Print (Error (CalledProcessError (returncode listing) tags_cmd
                           (Some (stderr listing))))] fs.
Proof.
  intros environ tool fs base_branch pr_branch c cs log listing Hlog Hcs Hrc.
  unfold run, generate_pr_based_changelog, try_except.
  rewrite bind_unfold.
  rewrite (get_commits_ok tool base_branch pr_branch (State [] fs) (c :: cs)
             Hlog Hcs).
  fold log. cbn [trace files app].
  rewrite bind_unfold. unfold get_latest_tag, try_except.
  rewrite bind_unfold. unfold subprocess_run. fold tags_cmd.
  cbn [trace files app]. fold listing.
  apply Z.eqb_neq in Hrc. rewrite Hrc. reflexivity.
Qed.

Lemma tag_listing_failure_ends_run_witness :
  run ∅ (fun _ cmd => match cmd with
                      | [_; "log"; _; _] => completed_ok "abc123 fix: bug"
                      | _ => Completed 2 "" "denied"
                      end) ∅ "develop" "feature/new-feature" =
  State [Invoke (log_cmd "develop" "feature/new-feature")
           (completed_ok "abc123 fix: bug");
         Invoke tags_cmd (Completed 2 "" "denied");
         Print (ErrorFetchingTags (Some "denied"));
         Print (Error (CalledProcessError 2 tags_cmd (Some "denied")))] ∅.
Proof.
  apply (tag_listing_failure_ends_run
           ∅ (fun _ cmd => match cmd with
                           | [_; "log"; _; _] => completed_ok "abc123 fix: bug"
                           | _ => Completed 2 "" "denied"
                           end) ∅ "develop" "feature/new-feature"
           ("abc123", "fix: bug") []).
  - reflexivity.
  - reflexivity.
  - vm_compute. discriminate.
Defined.

(** ** More on the classifier *)

Lemma prefix_app p q s :
  String.prefix (p +:+ q) s = true -> String.prefix p s = true.
Proof.
  revert s. induction p as [|a p IH]; intros s.
  - intros _. destruct s; reflexivity.
  - destruct s as [|b s]; simpl; [discriminate|].
    destruct (ascii_dec a b); [apply IH | discriminate].
Qed.

Lemma contains_app p q s :
  Py.contains (p +:+ q) s = true -> Py.contains p s = true.
Proof.
  induction s as [|a s IH]; cbn [Py.contains].
  - rewrite !orb_false_r. apply prefix_app.
  - intros [H|H]%orb_true_iff; apply orb_true_iff;
      [left; now apply (prefix_app p q) | right; now apply IH].
Qed.

(** X5. A message that contains "feature" contains "feat": the second test of
    line 62 never decides, and a commit is classified by "BREAKING CHANGE",
    "feat" and "fix" alone. *)
Theorem feature_test_is_redundant :
  forall (commit_hash message : string) (later : list commit),
    (Py.contains "feature" message = true ->
     Py.contains "feat" message = true) /\
    determine_version_increment ((commit_hash, message) :: later) =
    if Py.contains "BREAKING CHANGE" message then "major"
    else if Py.contains "feat" message then "minor"
    else if Py.contains "fix" message then "patch"
    else determine_version_increment later.
Proof.
  intros h m later.
  assert (Hfeat : Py.contains "feature" m = true -> Py.contains "feat" m = true)
    by apply (contains_app "feat" "ure").
  split; [exact Hfeat|].
  rewrite determine_version_increment_cons.
  destruct (Py.contains "feat" m); [reflexivity|].
  destruct (Py.contains "feature" m); [|reflexivity].
  discriminate (Hfeat eq_refl).
Qed.

Lemma feature_test_is_redundant_witness :
  Py.contains "feat" "add feature flag" = true.
Proof.
  apply (proj1 (feature_test_is_redundant "a1" "add feature flag" [])).
  reflexivity.
Defined.

(** X6. The result is "major" only when some message contains "BREAKING
    CHANGE", and "minor" only when some message contains "feat". *)
Theorem bump_kind_needs_keyword :
  forall commits : list commit,
    (determine_version_increment commits = "major" ->
     Exists (fun c => Py.contains "BREAKING CHANGE" (snd c) = true) commits) /\
    (determine_version_increment commits = "minor" ->
     Exists (fun c => Py.contains "feat" (snd c) = true) commits).
Proof.
  induction commits as [|[h m] cs [IHmajor IHminor]].
  - split; discriminate.
  - rewrite determine_version_increment_cons.
    destruct (Py.contains "BREAKING CHANGE" m) eqn:Hb.
    { split; [intros _; now left | discriminate]. }
    destruct (Py.contains "feat" m) eqn:Hf.
    { split; [discriminate | intros _; now left]. }
    destruct (Py.contains "feature" m) eqn:Hfe.
    { apply (contains_app "feat" "ure") in Hfe. congruence. }
    simpl orb. destruct (Py.contains "fix" m).
    { split; discriminate. }
    split; intros H; right; auto.
Qed.

Lemma bump_kind_needs_keyword_witness :
  Exists (fun c : commit => Py.contains "BREAKING CHANGE" (snd c) = true)
    [("a1", "chore: tidy"); ("a2", "BREAKING CHANGE: drop v1")] /\
  Exists (fun c : commit => Py.contains "feat" (snd c) = true)
    [("b1", "docs"); ("b2", "feat: search")].
Proof.
  split.
  - apply (proj1 (bump_kind_needs_keyword
                    [("a1", "chore: tidy"); ("a2", "BREAKING CHANGE: drop v1")])).
    reflexivity.
  - apply (proj2 (bump_kind_needs_keyword
                    [("b1", "docs"); ("b2", "feat: search")])).
    reflexivity.
Defined.

(** ** More on versions *)

Lemma determine_version_increment_kind commits :
  determine_version_increment commits = "major" \/
  determine_version_increment commits = "minor" \/
  determine_version_increment commits = "patch".
Proof.
  induction commits as [|[h m] cs IH]; [auto|].
  rewrite determine_version_increment_cons.
  destruct (Py.contains "BREAKING CHANGE" m); [auto|].
  destruct (Py.contains "feat" m || Py.contains "feature" m); [auto|].
  destruct (Py.contains "fix" m); auto.
Qed.

Lemma format_valid major minor patch :
  0 <= major -> 0 <= minor -> 0 <= patch ->
  validate_semantic_version (format_version (major, minor, patch)) = true.
Proof.
  intros Ha Hb Hc. apply validate_iff_shape.
  exists (Py.str major), (Py.str minor), (Py.str patch), "".
  destruct (str_nonneg major Ha) as [-> _].
  destruct (str_nonneg minor Hb) as [-> _].
  destruct (str_nonneg patch Hc) as [-> _].
  repeat split; [now left|]. unfold format_version. now rewrite app_empty_r.
Qed.

Lemma bump_nonneg major minor patch version_type :
  0 <= major -> 0 <= minor -> 0 <= patch ->
  let '(a, b, c) := bump (major, minor, patch) version_type in
  0 <= a /\ 0 <= b /\ 0 <= c.
Proof.
  intros Ha Hb Hc. unfold bump.
  destruct (String.eqb version_type "major"); [lia|].
  destruct (String.eqb version_type "minor"); [lia|].
  destruct (String.eqb version_type "patch"); lia.
Qed.

(** X7. On a tag that passes the validation, [increment_version] never
    raises, whatever the version type; the tag it returns passes the
    validation again, and parses into the bumped components of the input. *)
Theorem increment_keeps_valid :
  forall tag version_type : string,
    validate_semantic_version tag = true ->
    exists (v : Z * Z * Z) (new_tag : string),
      parse_version tag = Ok v /\
      increment_version tag version_type = Ok new_tag /\
      validate_semantic_version new_tag = true /\
      parse_version new_tag = Ok (bump v version_type).
Proof.
  intros tag vt (a & b & c & Hparse & Ha & Hb & Hc)%valid_tag_parses.
  exists (a, b, c), (format_version (bump (a, b, c) vt)).
  pose proof (bump_nonneg a b c vt Ha Hb Hc) as Hn.
  destruct (bump (a, b, c) vt) as [[a' b'] c'] eqn:Hbump.
  destruct Hn as (Ha' & Hb' & Hc').
  split; [exact Hparse|]. split; [|split].
  - unfold increment_version. rewrite Hparse. cbn [rbind]. now rewrite Hbump.
  - now apply format_valid.
  - now apply parse_format.
Qed.

Lemma increment_keeps_valid_witness :
  exists (v : Z * Z * Z) (new_tag : string),
    parse_version "v007.1.9" = Ok v /\
    increment_version "v007.1.9" "minor" = Ok new_tag /\
    validate_semantic_version new_tag = true /\
    parse_version new_tag = Ok (bump v "minor").
Proof. apply (increment_keeps_valid "v007.1.9" "minor"). reflexivity. Defined.

(** X8. A release moves the version up: on a valid latest tag, whatever the
    commits, the tag computed from the classifier's result parses into a
    version that is strictly greater in precedence order, so the new tag is
    never the latest tag again. *)
Theorem release_increases_version :
  forall (tag : string) (commits : list commit),
    validate_semantic_version tag = true ->
    exists (old new : Z * Z * Z) (new_tag : string),
      parse_version tag = Ok old /\
      increment_version tag (determine_version_increment commits) = Ok new_tag /\
      parse_version new_tag = Ok new /\
      semver_lt old new /\
      new_tag <> tag.
Proof.
  intros tag commits (a & b & c & Hparse & Ha & Hb & Hc)%valid_tag_parses.
  set (vt := determine_version_increment commits).
  pose proof (bump_nonneg a b c vt Ha Hb Hc) as Hn.
  assert (Hlt : semver_lt (a, b, c) (bump (a, b, c) vt)).
  { subst vt.
    destruct (determine_version_increment_kind commits) as [-> | [-> | ->]];
      simpl; lia. }
  destruct (bump (a, b, c) vt) as [[a' b'] c'] eqn:Hbump.
  destruct Hn as (Ha' & Hb' & Hc').
  exists (a, b, c), (a', b', c'), (format_version (a', b', c')).
  split; [exact Hparse|]. split; [|split; [|split]].
  - unfold increment_version. rewrite Hparse. cbn [rbind]. now rewrite Hbump.
  - now apply parse_format.
  - exact Hlt.
  - intros Heq. rewrite <- Heq in Hparse.
    rewrite (parse_format a' b' c' Ha' Hb' Hc') in Hparse.
    injection Hparse as -> -> ->. simpl in Hlt. lia.
Qed.

Lemma release_increases_version_witness :
  exists (old new : Z * Z * Z) (new_tag : string),
    parse_version "v1.9.4" = Ok old /\
    increment_version "v1.9.4"
      (determine_version_increment [("a1", "feat: search")]) = Ok new_tag /\
    parse_version new_tag = Ok new /\
    semver_lt old new /\
    new_tag <> "v1.9.4".
Proof.
  apply (release_increases_version "v1.9.4" [("a1", "feat: search")]).
  reflexivity.
Defined.

Lemma lstrip_vs n s : Py.lstrip "v" (vs n +:+ s) = Py.lstrip "v" s.
Proof. induction n as [|n IH]; simpl; [reflexivity | exact IH]. Qed.

(** X9. The parse skips every leading "v", however many there are, and none
    is needed: a tag with [n] of them is incremented like the tag without
    them. *)
Theorem leading_vs_are_skipped :
  forall (n : nat) (s version_type : string),
    parse_version (vs n +:+ s) = parse_version s /\
    increment_version (vs n +:+ s) version_type =
    increment_version s version_type.
Proof.
  intros n s vt. unfold increment_version, parse_version.
  now rewrite lstrip_vs.
Qed.

(** X10. A tag with fewer or more than three dot-separated numbers makes the
    parse raise the unpacking ValueError.  The items are converted one at a
    time: of a tag with more than three, only the fourth is converted before
    the error, whatever comes after it. *)
Theorem wrong_component_count :
  forall d1 d2 d3 d4 rest : string,
    digits d1 = true -> digits d2 = true -> digits d3 = true ->
    digits d4 = true ->
    parse_version ("v" +:+ d1) = Raise (ValueError (NotEnoughValues 3 1)) /\
    parse_version ("v" +:+ d1 +:+ "." +:+ d2) =
      Raise (ValueError (NotEnoughValues 3 2)) /\
    parse_version ("v" +:+ d1 +:+ "." +:+ d2 +:+ "." +:+ d3 +:+ "." +:+ d4) =
      Raise (ValueError (TooManyValues 3)) /\
    parse_version
      ("v" +:+ d1 +:+ "." +:+ d2 +:+ "." +:+ d3 +:+ "." +:+ d4 +:+ "." +:+ rest) =
      Raise (ValueError (TooManyValues 3)).
Proof.
  intros d1 d2 d3 d4 rest H1 H2 H3 H4.
  pose proof (digits_no_dot _ (digits_all _ H1)) as N1.
  pose proof (digits_no_dot _ (digits_all _ H2)) as N2.
  pose proof (digits_no_dot _ (digits_all _ H3)) as N3.
  pose proof (digits_no_dot _ (digits_all _ H4)) as N4.
  unfold parse_version. repeat split.
  - rewrite <- (app_empty_r d1) at 1.
    rewrite lstrip_v_digits, app_empty_r, split_none by assumption.
    cbn [List.map]. now rewrite (int_digits_only d1 H1).
  - rewrite lstrip_v_digits by assumption.
    change ("." +:+ d2) with (String "." d2).
    rewrite split_app, split_none by assumption.
    cbn [List.map].
    now rewrite (int_digits_only d1 H1), (int_digits_only d2 H2).
  - rewrite lstrip_v_digits by assumption.
    change ("." +:+ d2 +:+ "." +:+ d3 +:+ "." +:+ d4)
      with (String "." (d2 +:+ String "." (d3 +:+ String "." d4))).
    rewrite !split_app, split_none by assumption.
    cbn [List.map].
    now rewrite (int_digits_only d1 H1), (int_digits_only d2 H2),
      (int_digits_only d3 H3), (int_digits_only d4 H4).
  - rewrite lstrip_v_digits by assumption.
    change ("." +:+ d2 +:+ "." +:+ d3 +:+ "." +:+ d4 +:+ "." +:+ rest)
      with (String "."
              (d2 +:+ String "." (d3 +:+ String "." (d4 +:+ String "." rest)))).
    rewrite !split_app by assumption.
    cbn [List.map].
    now rewrite (int_digits_only d1 H1), (int_digits_only d2 H2),
      (int_digits_only d3 H3), (int_digits_only d4 H4).
Qed.

Lemma wrong_component_count_witness :
  parse_version "v1" = Raise (ValueError (NotEnoughValues 3 1)) /\
  parse_version "v1.2" = Raise (ValueError (NotEnoughValues 3 2)) /\
  parse_version "v1.2.3.4" = Raise (ValueError (TooManyValues 3)) /\
  parse_version "v1.2.3.4.beta" = Raise (ValueError (TooManyValues 3)).
Proof.
  apply (wrong_component_count "1" "2" "3" "4" "beta"); reflexivity.
Defined.

(** ** The latest tag, once it is validated *)

Lemma splitlines_no_linebreak s :
  Forall (fun l => no_linebreak l = true) (Py.splitlines s).
Proof.
  induction s as [|a s IH]; cbn [Py.splitlines]; [constructor|].
  destruct (Py.is_linebreak a) eqn:Ha.
  - constructor; [reflexivity|].
    destruct s as [|b s']; [constructor|].
    destruct ((Py.code a =? 13)%N && (Py.code b =? 10)%N); [|exact IH].
    destruct (Py.splitlines (String b s')); [constructor|].
    now inversion IH.
  - destruct (Py.splitlines s) as [|w ws].
    + repeat constructor. unfold no_linebreak. simpl. now rewrite Ha.
    + inversion IH as [|? ? Hw Hws]. constructor; [|exact Hws].
      unfold no_linebreak in *. simpl. now rewrite Ha, Hw.
Qed.

Lemma get_latest_tag_inv tool st tag st' :
  get_latest_tag tool st = (Ok tag, st') ->
  exists tags, Py.splitlines (stdout (tool st tags_cmd)) = tag :: tags.
Proof.
  unfold get_latest_tag, try_except. rewrite bind_unfold.
  unfold subprocess_run. fold tags_cmd.
  destruct (returncode (tool st tags_cmd) =? 0); [|discriminate].
  destruct (Py.splitlines (stdout (tool st tags_cmd))) as [|t ts];
    [discriminate|].
  intros [= <- _]. eauto.
Qed.

(** X11. The tag [get_latest_tag] returns is one line of the listing: it holds
    no line break.  So a latest tag that passes the validation is exactly "v"
    and three runs of digits separated by dots; the final line feed that the
    pattern tolerates cannot occur. *)
Theorem latest_tag_has_strict_shape :
  forall (tool : state -> list string -> completed) (st st' : state)
         (tag : string),
    get_latest_tag tool st = (Ok tag, st') ->
    no_linebreak tag = true /\
    (validate_semantic_version tag = true ->
     exists d1 d2 d3 : string,
       digits d1 = true /\ digits d2 = true /\ digits d3 = true /\
       tag = "v" +:+ d1 +:+ "." +:+ d2 +:+ "." +:+ d3).
Proof.
  intros tool st st' tag [tags Htags]%get_latest_tag_inv.
  assert (Hnb : no_linebreak tag = true).
  { pose proof (splitlines_no_linebreak (stdout (tool st tags_cmd))) as H.
    rewrite Htags in H. now inversion H. }
  split; [exact Hnb|].
  intros (d1 & d2 & d3 & nl' & H1 & H2 & H3 & [-> | ->] & ->)%validate_iff_shape.
  - exists d1, d2, d3. now rewrite app_empty_r.
  - exfalso. unfold no_linebreak in Hnb.
    change ("v" +:+ d1 +:+ "." +:+ d2 +:+ "." +:+ d3 +:+ String Re.newline "")
      with (String "v" (d1 +:+ String "." (d2 +:+ String "." (d3 +:+ nl))))
      in Hnb.
    cbn [all_chars] in Hnb. rewrite !all_chars_app in Hnb.
    cbn [all_chars] in Hnb. rewrite !all_chars_app in Hnb.
    cbn [all_chars] in Hnb. rewrite !all_chars_app in Hnb.
    replace (all_chars (fun a => negb (Py.is_linebreak a)) nl) with false in Hnb
      by reflexivity.
    rewrite !andb_false_r in Hnb. discriminate.
Qed.

Lemma latest_tag_has_strict_shape_witness :
  no_linebreak "v1.2.3" = true /\
  (validate_semantic_version "v1.2.3" = true ->
   exists d1 d2 d3 : string,
     digits d1 = true /\ digits d2 = true /\ digits d3 = true /\
     "v1.2.3" = "v" +:+ d1 +:+ "." +:+ d2 +:+ "." +:+ d3).
Proof.
  apply (latest_tag_has_strict_shape sample_tool (State [] ∅)
           (State [Invoke tags_cmd
                     (completed_ok ("v1.2.3" +:+ nl +:+ "v1.2.2" +:+ nl))] ∅)).
  reflexivity.
Defined.

(** ** What a run leaves behind *)



















Lemma keeps_ret path {A} (a : A) : keeps_others path (ret a).
Proof. intros st other _. reflexivity. Qed.

Lemma keeps_raise path {A} (e : exn) : keeps_others path (@raise A e).
Proof. intros st other _. reflexivity. Qed.

Lemma keeps_lift path {A} (r : result A) : keeps_others path (lift r).
Proof. intros st other _. reflexivity. Qed.

Lemma keeps_print path l : keeps_others path (print l).
Proof. intros st other _. reflexivity. Qed.

Lemma keeps_bind path {A B} (m : M A) (k : A -> M B) :
  keeps_others path m -> (forall a, keeps_others path (k a)) ->
  keeps_others path (bind m k).
Proof.
  intros Hm Hk st other Hne. rewrite bind_unfold.
  specialize (Hm st other Hne).
  destruct (m st) as [[a|e] st']; simpl in Hm |- *; [|exact Hm].
  now rewrite (Hk a st' other Hne).
Qed.

Lemma keeps_try_except path {A} (m : M A) (handler : exn -> M A) :
  keeps_others path m -> (forall e, keeps_others path (handler e)) ->
  keeps_others path (try_except m handler).
Proof.
  intros Hm Hh st other Hne. unfold try_except.
  specialize (Hm st other Hne).
  destruct (m st) as [[a|e] st']; simpl in Hm |- *; [exact Hm|].
  now rewrite (Hh e st' other Hne).
Qed.

Lemma keeps_subprocess_run path tool cmd capture_output :
  keeps_others path (subprocess_run tool cmd capture_output).
Proof.
  intros st other _. unfold subprocess_run.
  destruct (returncode (tool st cmd) =? 0); reflexivity.
Qed.

Lemma keeps_open_append path : keeps_others path (open_append path).
Proof. intros st other Hne. simpl. now rewrite lookup_insert_ne. Qed.

Lemma keeps_write path text : keeps_others path (write path text).
Proof. intros st other Hne. simpl. now rewrite lookup_insert_ne. Qed.

Lemma keeps_write_bullets path base_url commits :
  keeps_others path (write_bullets path base_url commits).
Proof.
  induction commits as [|[h m] cs IH]; cbn [write_bullets].
  - apply keeps_ret.
  - apply keeps_bind; [apply keeps_write | intros _; exact IH].
Qed.

Lemma keeps_update_changelog environ commits from_tag to_tag path :
  keeps_others path (update_changelog environ commits from_tag to_tag path).
Proof.
  unfold update_changelog.
  apply keeps_bind; [apply keeps_open_append | intros _].
  apply keeps_bind; [apply keeps_write | intros _].
  apply keeps_write_bullets.
Qed.

Lemma keeps_get_latest_tag path tool : keeps_others path (get_latest_tag tool).
Proof.
  unfold get_latest_tag. apply keeps_try_except.
  - apply keeps_bind; [apply keeps_subprocess_run | intros res].
    destruct (Py.splitlines (stdout res)); [apply keeps_raise | apply keeps_ret].
  - intros [rc cmd err| |]; try apply keeps_raise.
    apply keeps_bind; [apply keeps_print | intros _; apply keeps_raise].
Qed.

Lemma keeps_get_commits path tool base_branch pr_branch :
  keeps_others path (get_commits_from_pr tool base_branch pr_branch).
Proof.
  unfold get_commits_from_pr. apply keeps_try_except.
  - apply keeps_bind; [apply keeps_subprocess_run | intros res].
    apply keeps_lift.
  - intros [rc cmd err| |]; try apply keeps_raise.
    apply keeps_bind; [apply keeps_print | intros _; apply keeps_ret].
Qed.

Lemma keeps_generate environ tool base_branch pr_branch :
  keeps_others "changelog.md"
    (generate_pr_based_changelog environ tool base_branch pr_branch).
Proof.
  unfold generate_pr_based_changelog. apply keeps_try_except.
  - apply keeps_bind; [apply keeps_get_commits | intros [|c cs]].
    + apply keeps_print.
    + apply keeps_bind; [apply keeps_get_latest_tag | intros from_tag].
      apply keeps_bind; [apply keeps_print | intros _].
      apply keeps_bind;
        [destruct (validate_semantic_version from_tag);
           [apply keeps_ret | apply keeps_raise] | intros _].
      cbv zeta.
      apply keeps_bind; [apply keeps_lift | intros new_tag].
      apply keeps_bind; [apply keeps_print | intros _].
      apply keeps_bind; [apply keeps_subprocess_run | intros _].
      apply keeps_bind; [apply keeps_subprocess_run | intros _].
      apply keeps_bind; [apply keeps_update_changelog | intros _].
      apply keeps_bind; [apply keeps_subprocess_run | intros _].
      apply keeps_bind; [apply keeps_subprocess_run | intros _].
      apply keeps_bind; [apply keeps_subprocess_run | intros _].
      apply keeps_print.
  - intros e. apply keeps_print.
Qed.

(** X13. Of the files, a run can change "changelog.md" only: every other
    path holds after the run what it held before, whatever git answers. *)
Theorem run_writes_changelog_only :
  forall (environ : gmap string string)
         (tool : state -> list string -> completed)
         (fs : gmap string string) (base_branch pr_branch other : string),
    other <> "changelog.md" ->
    files (run environ tool fs base_branch pr_branch) !! other = fs !! other.
Proof.
  intros environ tool fs base_branch pr_branch other Hne.
  exact (keeps_generate environ tool base_branch pr_branch (State [] fs)
           other Hne).
Qed.

Lemma run_writes_changelog_only_witness :
  files (run ∅ sample_tool {["README.md" := "hello"]}
           "develop" "feature/new-feature") !! "README.md" =
  ({["README.md" := "hello"]} : gmap string string) !! "README.md".
Proof.
  apply (run_writes_changelog_only ∅ sample_tool {["README.md" := "hello"]}
           "develop" "feature/new-feature" "README.md").
  discriminate.
Defined.

(** ** A release that goes through *)

Lemma subprocess_run_ok tool cmd capture_output st :
  returncode (tool st cmd) = 0 ->
  subprocess_run tool cmd capture_output st =
  (Ok (tool st cmd),
   State (trace st ++ [Invoke cmd (tool st cmd)]) (files st)).
Proof.
  intros Hrc. unfold subprocess_run. apply Z.eqb_eq in Hrc. now rewrite Hrc.
Qed.

Lemma update_changelog_spec environ commits from_tag to_tag output_file st :
  let base_url :=
    "https://github.com/" +:+
    default "unknown/repo" (environ !! "GITHUB_REPOSITORY") +:+ "/commit" in
  let heading := nl +:+ section_header from_tag to_tag +:+ nl +:+ nl in
  exists st',
    update_changelog environ commits from_tag to_tag output_file st =
      (Ok tt, st') /\
    files st' !! output_file =
      Some (default "" (files st !! output_file) +:+ heading +:+
            unlines (List.map (bullet base_url) commits)) /\
    trace st' =
      trace st ++ OpenAppend output_file :: Write output_file heading ::
      List.map (fun c => Write output_file (bullet base_url c +:+ nl)) commits.
Proof.
  intros base_url heading. unfold update_changelog. fold base_url.
  rewrite bind_unfold. unfold open_append. rewrite bind_unfold.
  rewrite (write_spec _ _ _ (default "" (files st !! output_file)))
    by (cbn [files]; now rewrite lookup_insert_eq).
  replace (String Re.newline "## Changes from " +:+ from_tag +:+ " to " +:+
           to_tag +:+ String Re.newline (String Re.newline ""))
    with heading
    by (unfold heading, section_header, nl; now rewrite !app_assoc_string).
  match goal with
  | |- context [write_bullets _ _ _ ?s] =>
      destruct (write_bullets_spec output_file base_url commits s
                  (default "" (files st !! output_file) +:+ heading))
        as (Hok & Hfile & _ & Htrace);
      [cbn [files]; now rewrite lookup_insert_eq|];
      destruct (write_bullets output_file base_url commits s) as [r st']
  end.
  simpl in Hok, Hfile, Htrace. subst r. exists st'.
  split; [reflexivity|]. split.
  - rewrite Hfile. now rewrite !app_assoc_string.
  - rewrite Htrace. cbn [trace]. now rewrite <- !app_assoc.
Qed.

Lemma invocations_app t u :
  invocations (t ++ u) = invocations t ++ invocations u.
Proof.
  induction t as [|[cmd res|l|p|p x] t IH]; simpl; [reflexivity | | | |];
    now rewrite IH.
Qed.

Lemma invocations_writes {A} (f : A -> string) path (xs : list A) :
  invocations (List.map (fun x => Write path (f x)) xs) = [].
Proof. induction xs as [|x xs IH]; simpl; [reflexivity | exact IH]. Qed.

(** X14. When git succeeds at every step, the log holds commits and the
    latest tag is valid, the run invokes git seven times, in this order: log,
    tag listing, tag creation, push of the tag, add, commit, push of the base
    branch; the new tag is the increment of the latest one by the classifier's
    result; "changelog.md" gains the section from the latest tag to the new
    one, written after the tag is pushed and before the add; the last thing
    the run does is print the success line. *)
Theorem successful_release :
  forall (environ : gmap string string)
         (tool : state -> list string -> completed)
         (fs : gmap string string) (base_branch pr_branch : string)
         (c : commit) (cs : list commit) (tag : string) (tags : list string),
    let log := tool (State [] fs) (log_cmd base_branch pr_branch) in
    let listing :=
      tool (State [Invoke (log_cmd base_branch pr_branch) log] fs) tags_cmd in
    let base_url :=
      "https://github.com/" +:+
      default "unknown/repo" (environ !! "GITHUB_REPOSITORY") +:+ "/commit" in
    (forall st cmd, returncode (tool st cmd) = 0) ->
    commits_of_lines (Py.splitlines (stdout log)) = Ok (c :: cs) ->
    Py.splitlines (stdout listing) = tag :: tags ->
    validate_semantic_version tag = true ->
    exists new_tag,
      increment_version tag (determine_version_increment (c :: cs)) =
        Ok new_tag /\
      invocations (trace (run environ tool fs base_branch pr_branch)) =
        [log_cmd base_branch pr_branch; tags_cmd;
         ["git"; "tag"; new_tag];
         ["git"; "push"; "origin"; new_tag];
         ["git"; "add"; "changelog.md"];
         ["git"; "commit"; "-m"; "Update changelog for " +:+ new_tag];
         ["git"; "push"; "origin"; base_branch]] /\
      files (run environ tool fs base_branch pr_branch) !! "changelog.md" =
        Some (default "" (fs !! "changelog.md") +:+
              (nl +:+ section_header tag new_tag +:+ nl +:+ nl) +:+
              unlines (List.map (bullet base_url) (c :: cs))) /\
      last (trace (run environ tool fs base_branch pr_branch)) =
        Some (Print (ChangelogUpdated new_tag)).
Proof.
  intros environ tool fs base_branch pr_branch c cs tag tags log listing
    base_url Hall Hcs Htags Hvalid.
  destruct (valid_tag_parses tag Hvalid) as (a & b & c' & Hparse & _).
  set (vt := determine_version_increment (c :: cs)).
  set (new_tag := format_version (bump (a, b, c') vt)).
  assert (Hinc : increment_version tag vt = Ok new_tag)
    by (unfold increment_version; now rewrite Hparse).
  exists new_tag. split; [exact Hinc|].
  unfold run, generate_pr_based_changelog, try_except.
  rewrite bind_unfold.
  rewrite (get_commits_ok tool base_branch pr_branch (State [] fs) (c :: cs)
             (Hall _ _) Hcs).
  fold log. cbn [trace files app].
  rewrite bind_unfold.
  rewrite (get_latest_tag_first tool _ tag tags (Hall _ _) Htags).
  fold listing. cbn [trace files app].
  rewrite bind_unfold. cbn [print emit trace files app].
  rewrite bind_unfold, Hvalid. cbn [ret].
  fold vt. rewrite bind_unfold. unfold lift. rewrite Hinc.
  rewrite bind_unfold. cbn [print emit trace files app].
  rewrite bind_unfold, subprocess_run_ok by apply Hall.
  cbn [trace files app].
  rewrite bind_unfold, subprocess_run_ok by apply Hall.
  cbn [trace files app].
  rewrite bind_unfold.
  match goal with
  | |- context [update_changelog _ _ _ _ _ ?s] =>
      destruct (update_changelog_spec environ (c :: cs) tag new_tag
                  "changelog.md" s) as (st5 & -> & Hfile & Htrace)
  end.
  cbn [trace files] in Hfile, Htrace. fold base_url in Hfile, Htrace.
  rewrite bind_unfold, subprocess_run_ok by apply Hall.
  rewrite bind_unfold, subprocess_run_ok by apply Hall.
  rewrite bind_unfold, subprocess_run_ok by apply Hall.
  cbn [print emit snd trace files].
  rewrite Htrace. split; [|split].
  - rewrite !invocations_app. cbn [invocations app].
    rewrite (invocations_writes
               (fun x => bullet base_url x +:+ nl) "changelog.md").
    reflexivity.
  - exact Hfile.
  - apply last_snoc.
Qed.

Lemma successful_release_witness :
  exists new_tag,
    increment_version "v1.2.3"
      (determine_version_increment [("abc123", "feat: search")]) = Ok new_tag /\
    invocations
      (trace (run ∅ (fun _ cmd =>
                       match cmd with
                       | [_; "log"; _; _] => completed_ok "abc123 feat: search"
                       | [_; "tag"; "--sort=-v:refname"] =>
                           completed_ok ("v1.2.3" +:+ nl)
                       | _ => completed_ok ""
                       end) ∅ "develop" "feature/search")) =
      [log_cmd "develop" "feature/search"; tags_cmd;
       ["git"; "tag"; new_tag];
       ["git"; "push"; "origin"; new_tag];
       ["git"; "add"; "changelog.md"];
       ["git"; "commit"; "-m"; "Update changelog for " +:+ new_tag];
       ["git"; "push"; "origin"; "develop"]] /\
    files (run ∅ (fun _ cmd =>
                    match cmd with
                    | [_; "log"; _; _] => completed_ok "abc123 feat: search"
                    | [_; "tag"; "--sort=-v:refname"] =>
                        completed_ok ("v1.2.3" +:+ nl)
                    | _ => completed_ok ""
                    end) ∅ "develop" "feature/search") !! "changelog.md" =
      Some (default "" ((∅ : gmap string string) !! "changelog.md") +:+
            (nl +:+ section_header "v1.2.3" new_tag +:+ nl +:+ nl) +:+
            unlines
              (List.map
                 (bullet ("https://github.com/" +:+
                          default "unknown/repo"
                            ((∅ : gmap string string) !! "GITHUB_REPOSITORY")
                          +:+ "/commit"))
                 [("abc123", "feat: search")])) /\
    last (trace (run ∅ (fun _ cmd =>
                          match cmd with
                          | [_; "log"; _; _] =>
                              completed_ok "abc123 feat: search"
                          | [_; "tag"; "--sort=-v:refname"] =>
                              completed_ok ("v1.2.3" +:+ nl)
                          | _ => completed_ok ""
                          end) ∅ "develop" "feature/search")) =
      Some (Print (ChangelogUpdated new_tag)).
Proof.
  apply (successful_release ∅
           (fun _ cmd =>
              match cmd with
              | [_; "log"; _; _] => completed_ok "abc123 feat: search"
              | [_; "tag"; "--sort=-v:refname"] => completed_ok ("v1.2.3" +:+ nl)
              | _ => completed_ok ""
              end) ∅ "develop" "feature/search"
           ("abc123", "feat: search") [] "v1.2.3" []).
  - intros st cmd.
    repeat (match goal with
            | |- context [match ?x with _ => _ end] => destruct x
            end; try reflexivity).
  - reflexivity.
  - reflexivity.
  - reflexivity.
Defined.

(** ** A release that stops half-way *)

Lemma subprocess_run_fail tool cmd capture_output st :
  returncode (tool st cmd) <> 0 ->
  subprocess_run tool cmd capture_output st =
  (Raise (CalledProcessError (returncode (tool st cmd)) cmd
            (if capture_output then Some (stderr (tool st cmd)) else None)),
   State (trace st ++ [Invoke cmd (tool st cmd)]) (files st)).
Proof.
  intros Hrc. unfold subprocess_run. apply Z.eqb_neq in Hrc. now rewrite Hrc.
Qed.

(** X15. When pushing the new tag fails (everything else succeeding), the run
    stops there: the tag has been created, the changelog has not been
    written, no file has changed, and the last line printed carries the
    exception. *)
Theorem tag_push_failure_leaves_tag :
  forall (environ : gmap string string)
         (tool : state -> list string -> completed)
         (fs : gmap string string) (base_branch pr_branch : string)
         (c : commit) (cs : list commit) (tag new_tag : string)
         (tags : list string),
    let log := tool (State [] fs) (log_cmd base_branch pr_branch) in
    let listing :=
      tool (State [Invoke (log_cmd base_branch pr_branch) log] fs) tags_cmd in
    let push := ["git"; "push"; "origin"; new_tag] in
    (forall st cmd, cmd <> push -> returncode (tool st cmd) = 0) ->
    (forall st, returncode (tool st push) <> 0) ->
    commits_of_lines (Py.splitlines (stdout log)) = Ok (c :: cs) ->
    Py.splitlines (stdout listing) = tag :: tags ->
    validate_semantic_version tag = true ->
    increment_version tag (determine_version_increment (c :: cs)) = Ok new_tag ->
    invocations (trace (run environ tool fs base_branch pr_branch)) =
      [log_cmd base_branch pr_branch; tags_cmd; ["git"; "tag"; new_tag]; push] /\
    files (run environ tool fs base_branch pr_branch) = fs /\
    exists rc,
      rc <> 0 /\
      last (trace (run environ tool fs base_branch pr_branch)) =
      Some (Print (Error (CalledProcessError rc push None))).
Proof.
  intros environ tool fs base_branch pr_branch c cs tag new_tag tags
    log listing push Hok Hfail Hcs Htags Hvalid Hinc.
  unfold run, generate_pr_based_changelog, try_except.
  rewrite bind_unfold.
  rewrite (get_commits_ok tool base_branch pr_branch (State [] fs) (c :: cs));
    [|apply Hok; discriminate | exact Hcs].
  fold log. cbn [trace files app].
  rewrite bind_unfold.
  rewrite (get_latest_tag_first tool _ tag tags);
    [|apply Hok; discriminate | exact Htags].
  fold listing. cbn [trace files app].
  rewrite bind_unfold. cbn [print emit trace files app].
  rewrite bind_unfold, Hvalid. cbn [ret].
  rewrite bind_unfold. unfold lift. rewrite Hinc.
  rewrite bind_unfold. cbn [print emit trace files app].
  rewrite bind_unfold, subprocess_run_ok by (apply Hok; discriminate).
  cbn [trace files app].
  rewrite bind_unfold, subprocess_run_fail by apply Hfail.
  cbn [print emit snd trace files app invocations].
  split; [reflexivity|]. split; [reflexivity|].
  eexists. split; [|reflexivity]. apply Hfail.
Qed.

Lemma tag_push_failure_leaves_tag_witness :
  invocations
    (trace (run ∅ (failing_on ["git"; "push"; "origin"; "v1.2.4"]) ∅
              "develop" "feature/fix")) =
    [log_cmd "develop" "feature/fix"; tags_cmd; ["git"; "tag"; "v1.2.4"];
     ["git"; "push"; "origin"; "v1.2.4"]] /\
  files (run ∅ (failing_on ["git"; "push"; "origin"; "v1.2.4"]) ∅
           "develop" "feature/fix") = ∅ /\
  exists rc,
    rc <> 0 /\
    last (trace (run ∅ (failing_on ["git"; "push"; "origin"; "v1.2.4"]) ∅
                   "develop" "feature/fix")) =
    Some (Print (Error (CalledProcessError rc
                          ["git"; "push"; "origin"; "v1.2.4"] None))).
Proof.
  apply (tag_push_failure_leaves_tag ∅
           (failing_on ["git"; "push"; "origin"; "v1.2.4"]) ∅
           "develop" "feature/fix"
           ("abc123", "fix: bug") [("def456", "feat: thing")]
           "v1.2.3" "v1.2.4" ["v1.2.2"]).
  - intros st cmd Hne. unfold failing_on.
    destruct (decide (cmd = ["git"; "push"; "origin"; "v1.2.4"]));
      [contradiction|].
    repeat (match goal with
            | |- context [match ?x with _ => _ end] => destruct x
            end; try reflexivity).
  - intros st. vm_compute. discriminate.
  - reflexivity.
  - reflexivity.
  - reflexivity.
  - reflexivity.
Defined.

(** X16. When [git add] fails (everything else succeeding), the tag has
    already been created and pushed and the section has already been appended
    to "changelog.md": the run stops with the file changed and neither
    committed nor pushed. *)
Theorem add_failure_leaves_changelog :
  forall (environ : gmap string string)
         (tool : state -> list string -> completed)
         (fs : gmap string string) (base_branch pr_branch : string)
         (c : commit) (cs : list commit) (tag new_tag : string)
         (tags : list string),
    let log := tool (State [] fs) (log_cmd base_branch pr_branch) in
    let listing :=
      tool (State [Invoke (log_cmd base_branch pr_branch) log] fs) tags_cmd in
    let base_url :=
      "https://github.com/" +:+
      default "unknown/repo" (environ !! "GITHUB_REPOSITORY") +:+ "/commit" in
    let add := ["git"; "add"; "changelog.md"] in
    (forall st cmd, cmd <> add -> returncode (tool st cmd) = 0) ->
    (forall st, returncode (tool st add) <> 0) ->
    commits_of_lines (Py.splitlines (stdout log)) = Ok (c :: cs) ->
    Py.splitlines (stdout listing) = tag :: tags ->
    validate_semantic_version tag = true ->
    increment_version tag (determine_version_increment (c :: cs)) = Ok new_tag ->
    invocations (trace (run environ tool fs base_branch pr_branch)) =
      [log_cmd base_branch pr_branch; tags_cmd; ["git"; "tag"; new_tag];
       ["git"; "push"; "origin"; new_tag]; add] /\
    files (run environ tool fs base_branch pr_branch) !! "changelog.md" =
      Some (default "" (fs !! "changelog.md") +:+
            (nl +:+ section_header tag new_tag +:+ nl +:+ nl) +:+
            unlines (List.map (bullet base_url) (c :: cs))).
Proof.
  intros environ tool fs base_branch pr_branch c cs tag new_tag tags
    log listing base_url add Hok Hfail Hcs Htags Hvalid Hinc.
  unfold run, generate_pr_based_changelog, try_except.
  rewrite bind_unfold.
  rewrite (get_commits_ok tool base_branch pr_branch (State [] fs) (c :: cs));
    [|apply Hok; discriminate | exact Hcs].
  fold log. cbn [trace files app].
  rewrite bind_unfold.
  rewrite (get_latest_tag_first tool _ tag tags);
    [|apply Hok; discriminate | exact Htags].
  fold listing. cbn [trace files app].
  rewrite bind_unfold. cbn [print emit trace files app].
  rewrite bind_unfold, Hvalid. cbn [ret].
  rewrite bind_unfold. unfold lift. rewrite Hinc.
  rewrite bind_unfold. cbn [print emit trace files app].
  rewrite bind_unfold, subprocess_run_ok by (apply Hok; discriminate).
  cbn [trace files app].
  rewrite bind_unfold, subprocess_run_ok by (apply Hok; discriminate).
  cbn [trace files app].
  rewrite bind_unfold.
  match goal with
  | |- context [update_changelog _ _ _ _ _ ?s] =>
      destruct (update_changelog_spec environ (c :: cs) tag new_tag
                  "changelog.md" s) as (st5 & -> & Hfile & Htrace)
  end.
  cbn [trace files] in Hfile, Htrace. fold base_url in Hfile, Htrace.
  rewrite bind_unfold, subprocess_run_fail by apply Hfail.
  cbn [print emit snd trace files].
  rewrite Htrace. split; [|exact Hfile].
  rewrite !invocations_app. cbn [invocations app].
  rewrite (invocations_writes
             (fun x => bullet base_url x +:+ nl) "changelog.md").
  reflexivity.
Qed.

Lemma add_failure_leaves_changelog_witness :
  invocations
    (trace (run ∅ (failing_on ["git"; "add"; "changelog.md"]) ∅
              "develop" "feature/new-feature")) =
    [log_cmd "develop" "feature/new-feature"; tags_cmd;
     ["git"; "tag"; "v1.2.4"]; ["git"; "push"; "origin"; "v1.2.4"];
     ["git"; "add"; "changelog.md"]] /\
  files (run ∅ (failing_on ["git"; "add"; "changelog.md"]) ∅
           "develop" "feature/new-feature") !! "changelog.md" =
    Some (default "" ((∅ : gmap string string) !! "changelog.md") +:+
          (nl +:+ section_header "v1.2.3" "v1.2.4" +:+ nl +:+ nl) +:+
          unlines
            (List.map
               (bullet ("https://github.com/" +:+
                        default "unknown/repo"
                          ((∅ : gmap string string) !! "GITHUB_REPOSITORY")
                        +:+ "/commit"))
               [("abc123", "fix: bug"); ("def456", "feat: thing")])).
Proof.
  apply (add_failure_leaves_changelog ∅
           (failing_on ["git"; "add"; "changelog.md"]) ∅
           "develop" "feature/new-feature"
           ("abc123", "fix: bug") [("def456", "feat: thing")]
           "v1.2.3" "v1.2.4" ["v1.2.2"]).
  - intros st cmd Hne. unfold failing_on.
    destruct (decide (cmd = ["git"; "add"; "changelog.md"])); [contradiction|].
    repeat (match goal with
            | |- context [match ?x with _ => _ end] => destruct x
            end; try reflexivity).
  - intros st. vm_compute. discriminate.
  - reflexivity.
  - reflexivity.
  - reflexivity.
  - reflexivity.
Defined.

(** ** The changelog is only ever appended to *)

Lemma appended_refl path fs : appended path fs fs.
Proof. now left. Qed.

Lemma appended_trans path fs1 fs2 fs3 :
  appended path fs1 fs2 -> appended path fs2 fs3 -> appended path fs1 fs3.
Proof.
  intros [H12 | [s1 H12]] [H23 | [s2 H23]].
  - left. congruence.
  - right. exists s2. now rewrite H23, H12.
  - right. exists s1. congruence.
  - right. exists (s1 +:+ s2). rewrite H23, H12. simpl.
    now rewrite app_assoc_string.
Qed.

Lemma appends_ret path {A} (a : A) : only_appends path (ret a).
Proof. intros st. apply appended_refl. Qed.

Lemma appends_raise path {A} (e : exn) : only_appends path (@raise A e).
Proof. intros st. apply appended_refl. Qed.

Lemma appends_lift path {A} (r : result A) : only_appends path (lift r).
Proof. intros st. apply appended_refl. Qed.

Lemma appends_print path l : only_appends path (print l).
Proof. intros st. apply appended_refl. Qed.

Lemma appends_bind path {A B} (m : M A) (k : A -> M B) :
  only_appends path m -> (forall a, only_appends path (k a)) ->
  only_appends path (bind m k).
Proof.
  intros Hm Hk st. rewrite bind_unfold. specialize (Hm st).
  destruct (m st) as [[a|e] st']; simpl in Hm |- *; [|exact Hm].
  exact (appended_trans _ _ _ _ Hm (Hk a st')).
Qed.

Lemma appends_try_except path {A} (m : M A) (handler : exn -> M A) :
  only_appends path m -> (forall e, only_appends path (handler e)) ->
  only_appends path (try_except m handler).
Proof.
  intros Hm Hh st. unfold try_except. specialize (Hm st).
  destruct (m st) as [[a|e] st']; simpl in Hm |- *; [exact Hm|].
  exact (appended_trans _ _ _ _ Hm (Hh e st')).
Qed.

Lemma appends_subprocess_run path tool cmd capture_output :
  only_appends path (subprocess_run tool cmd capture_output).
Proof.
  intros st. unfold subprocess_run.
  destruct (returncode (tool st cmd) =? 0); apply appended_refl.
Qed.

Lemma appends_open_append path : only_appends path (open_append path).
Proof.
  intros st. right. exists "". simpl.
  now rewrite lookup_insert_eq, app_empty_r.
Qed.

Lemma appends_write path text : only_appends path (write path text).
Proof. intros st. right. exists text. simpl. now rewrite lookup_insert_eq. Qed.

Lemma appends_write_bullets path base_url commits :
  only_appends path (write_bullets path base_url commits).
Proof.
  induction commits as [|[h m] cs IH]; cbn [write_bullets].
  - apply appends_ret.
  - apply appends_bind; [apply appends_write | intros _; exact IH].
Qed.

Lemma appends_update_changelog environ commits from_tag to_tag path :
  only_appends path (update_changelog environ commits from_tag to_tag path).
Proof.
  unfold update_changelog.
  apply appends_bind; [apply appends_open_append | intros _].
  apply appends_bind; [apply appends_write | intros _].
  apply appends_write_bullets.
Qed.

Lemma appends_get_latest_tag path tool : only_appends path (get_latest_tag tool).
Proof.
  unfold get_latest_tag. apply appends_try_except.
  - apply appends_bind; [apply appends_subprocess_run | intros res].
    destruct (Py.splitlines (stdout res));
      [apply appends_raise | apply appends_ret].
  - intros [rc cmd err| |]; try apply appends_raise.
    apply appends_bind; [apply appends_print | intros _; apply appends_raise].
Qed.

Lemma appends_get_commits path tool base_branch pr_branch :
  only_appends path (get_commits_from_pr tool base_branch pr_branch).
Proof.
  unfold get_commits_from_pr. apply appends_try_except.
  - apply appends_bind; [apply appends_subprocess_run | intros res].
    apply appends_lift.
  - intros [rc cmd err| |]; try apply appends_raise.
    apply appends_bind; [apply appends_print | intros _; apply appends_ret].
Qed.

Lemma appends_generate environ tool base_branch pr_branch :
  only_appends "changelog.md"
    (generate_pr_based_changelog environ tool base_branch pr_branch).
Proof.
  unfold generate_pr_based_changelog. apply appends_try_except.
  - apply appends_bind; [apply appends_get_commits | intros [|c cs]].
    + apply appends_print.
    + apply appends_bind; [apply appends_get_latest_tag | intros from_tag].
      apply appends_bind; [apply appends_print | intros _].
      apply appends_bind;
        [destruct (validate_semantic_version from_tag);
           [apply appends_ret | apply appends_raise] | intros _].
      cbv zeta.
      apply appends_bind; [apply appends_lift | intros new_tag].
      apply appends_bind; [apply appends_print | intros _].
      apply appends_bind; [apply appends_subprocess_run | intros _].
      apply appends_bind; [apply appends_subprocess_run | intros _].
      apply appends_bind; [apply appends_update_changelog | intros _].
      apply appends_bind; [apply appends_subprocess_run | intros _].
      apply appends_bind; [apply appends_subprocess_run | intros _].
      apply appends_bind; [apply appends_subprocess_run | intros _].
      apply appends_print.
  - intros e. apply appends_print.
Qed.

(** X17. A run never alters or removes text of "changelog.md": after the run
    the file holds what it held before, or that followed by more text,
    whatever git answers. *)
Theorem run_only_appends_to_changelog :
  forall (environ : gmap string string)
         (tool : state -> list string -> completed)
         (fs : gmap string string) (base_branch pr_branch : string),
    files (run environ tool fs base_branch pr_branch) !! "changelog.md" =
      fs !! "changelog.md" \/
    exists suffix,
      files (run environ tool fs base_branch pr_branch) !! "changelog.md" =
      Some (default "" (fs !! "changelog.md") +:+ suffix).
Proof.
  intros environ tool fs base_branch pr_branch.
  exact (appends_generate environ tool base_branch pr_branch (State [] fs)).
Qed.

(** ** The whole log *)

(** X18. The commits come out of the log in the order and number of its
    lines: the lines of a list of commits whose hashes hold no space are read
    back as that list, and a log that is read without error is made of the
    lines of the commits returned. *)
Theorem commits_of_lines_roundtrip :
  forall (ls : list string) (commits : list commit),
    (Forall (fun c => lacks " " (fst c) = true) commits ->
     commits_of_lines (List.map log_line commits) = Ok commits) /\
    (commits_of_lines ls = Ok commits ->
     ls = List.map log_line commits /\
     Forall (fun c => lacks " " (fst c) = true) commits).
Proof.
  intros ls commits. split.
  - induction 1 as [|[h m] cs Hh _ IH]; [reflexivity|].
    cbn [List.map commits_of_lines]. unfold log_line at 1. cbn [fst snd].
    unfold commit_of_line.
    change (h +:+ " " +:+ m) with (h +:+ String " " m).
    rewrite (split1_at_sep " " h m Hh). cbn [rbind]. now rewrite IH.
  - revert commits. induction ls as [|l ls IH]; intros commits.
    + intros [= <-]. split; [reflexivity | constructor].
    + cbn [commits_of_lines]. unfold commit_of_line.
      destruct (split1_cases " " l) as [[_ ->] | (h & m & Hh & -> & ->)];
        [discriminate|].
      cbn [rbind].
      destruct (commits_of_lines ls) as [cs|e]; [|discriminate].
      intros [= <-]. destruct (IH cs eq_refl) as [-> Hcs].
      split; [reflexivity | now constructor].
Qed.

Lemma commits_of_lines_roundtrip_witness :
  commits_of_lines
    (List.map log_line [("abc123", "fix: a b"); ("def456", "")]) =
  Ok [("abc123", "fix: a b"); ("def456", "")] /\
  (["abc123 fix: a b"; "def456 "] =
   List.map log_line [("abc123", "fix: a b"); ("def456", "")] /\
   Forall (fun c : commit => lacks " " (fst c) = true)
     [("abc123", "fix: a b"); ("def456", "")]).
Proof.
  split.
  - apply (proj1 (commits_of_lines_roundtrip
                    [] [("abc123", "fix: a b"); ("def456", "")])).
    repeat constructor.
  - apply (proj2 (commits_of_lines_roundtrip
                    ["abc123 fix: a b"; "def456 "]
                    [("abc123", "fix: a b"); ("def456", "")])).
    reflexivity.
Defined.
